(** * Reddit Authority Agent: a shallow embedding of [api/agent.py] and
      [api/config.py], and the properties of its ingestion cycle and HTTP
      handlers.

    The document store and the forum are external services.  They are
    modelled as one [world] value that every handler threads through: the
    collection of post records, the forum listing, the two clocks, a
    schedule of failures of the external calls and a log of the calls made.
    Python exceptions are carried as their [str(e)] text, the only thing the
    handlers ever read from them. *)

From stdpp Require Import gmap strings list fin_maps.
From Stdlib Require Import ZArith.

Open Scope string_scope.
Open Scope list_scope.

(** ** Values and documents *)

(** A field value of a Firestore document or of a JSON request body.
    [SERVER_TIMESTAMP] is the write-time sentinel of the Firestore client;
    it is replaced by the server's time when a write is applied.  Lists and
    maps are never inspected by the agent and are kept as their JSON text. *)
Inductive value :=
| VNull
| VBool (b : bool)
| VNum (n : Z)
| VStr (s : string)
| VTimestamp (t : Z)
| SERVER_TIMESTAMP
| VNested (repr : string).

(** Python dicts with string keys: documents, [post_data], request bodies. *)
Abbreviation doc := (gmap string value).

(** [class PostStatus(Enum)] *)
Inductive PostStatus := NEW | ANALYSIS_PENDING | APPROVED | REJECTED | DEPLOYED.

Definition PostStatus_value (s : PostStatus) : string :=
  match s with
  | NEW => "New"
  | ANALYSIS_PENDING => "AnalysisPending"
  | APPROVED => "Approved"
  | REJECTED => "Rejected"
  | DEPLOYED => "Deployed"
  end.

(** Iteration order of the enum, [for status in PostStatus]. *)
Definition PostStatus_members : list PostStatus :=
  [NEW; ANALYSIS_PENDING; APPROVED; REJECTED; DEPLOYED].

(** ** The forum *)

(** The attributes of a PRAW submission that the agent reads. *)
Record submission := {
  sub_id : string;
  title : string;
  selftext : string;
  url : string;
  author : option string;
  created_utc : Z;
  stickied : bool;
  removed_by_category : option string;
  is_self : bool;
}.

(** What the listing generator yields: a submission, or an exception raised
    while the loop body reads that element. *)
Inductive feed_item :=
| Item (s : submission)
| Broken (msg : string).

(** ** The world *)

Inductive event :=
| EvFirestoreInit
| EvRedditInit
| EvGet (post_id : string)
| EvSet (post_id : string)
| EvUpdate (post_id : string)
| EvQuery
| EvStream
| EvSubredditNew.

Record world := {
  docs : gmap string doc;            (* the reddit_posts collection *)
  listing : list feed_item;          (* the subreddit, newest first *)
  server_time : Z;                   (* Firestore's clock *)
  utcnow : Z;                        (* the handler's own clock *)
  faults : list (option string);     (* outcome of the next external calls *)
  log : list event;                  (* external calls made, newest first *)
}.

Definition with_docs (f : gmap string doc → gmap string doc) (w : world) : world :=
  {| docs := f (docs w); listing := listing w; server_time := server_time w;
     utcnow := utcnow w; faults := faults w; log := log w |}.

Definition with_faults (fs : list (option string)) (w : world) : world :=
  {| docs := docs w; listing := listing w; server_time := server_time w;
     utcnow := utcnow w; faults := fs; log := log w |}.

Definition with_log (ev : event) (w : world) : world :=
  {| docs := docs w; listing := listing w; server_time := server_time w;
     utcnow := utcnow w; faults := faults w; log := ev :: log w |}.

(** ** Exceptions and state *)

Inductive outcome (A : Type) :=
| Ret (a : A)
| Raise (msg : string).
Arguments Ret {A} a.
Arguments Raise {A} msg.

Definition M (A : Type) : Type := world → outcome A * world.

Definition mret {A} (a : A) : M A := λ w, (Ret a, w).

Definition raise {A} (msg : string) : M A := λ w, (Raise msg, w).

Definition mbind {A B} (m : M A) (k : A → M B) : M B :=
  λ w, match m w with
       | (Ret a, w') => k a w'
       | (Raise msg, w') => (Raise msg, w')
       end.

Notation "'let*' x ':=' m 'in' k" := (mbind m (λ x, k))
  (at level 10, x name, m at level 100, k at level 200).

(** The failure scheduled for the next external call, if any.  An exhausted
    schedule means no further failure. *)
Definition next_fault (w : world) : option string :=
  match faults w with
  | Some msg :: _ => Some msg
  | _ => None
  end.

(** The world after one external call: the call is logged and the head of
    the schedule is consumed. *)
Definition advance (ev : event) (w : world) : world :=
  with_faults (tail (faults w)) (with_log ev w).

(** One call to an external service. *)
Definition external (ev : event) : M unit :=
  λ w, match next_fault w with
       | Some msg => (Raise msg, advance ev w)
       | None => (Ret tt, advance ev w)
       end.

(** ** Python helpers *)

(** Truthiness of a value that is a string or [None]. *)
Definition truthy (o : option string) : bool :=
  match o with
  | Some s => negb (String.eqb s "")
  | None => false
  end.

(** [a != b] on values that are strings or [None]. *)
Definition py_ne (a b : option string) : bool :=
  match a, b with
  | Some x, Some y => negb (String.eqb x y)
  | None, None => false
  | _, _ => true
  end.

(** [str(x)] of a string or [None]. *)
Definition py_str (o : option string) : string :=
  match o with
  | Some s => s
  | None => "None"
  end.

(** [d[k]], raising [KeyError(k)], whose text is the quoted key. *)
Definition getitem (d : doc) (k : string) : M value :=
  match d !! k with
  | Some v => mret v
  | None => raise ("'" +:+ k +:+ "'")
  end.

(** [v == s] for a string [s]. *)
Definition value_eq_str (v : value) (s : string) : bool :=
  match v with
  | VStr s' => String.eqb s' s
  | _ => false
  end.

(** ** Configuration *)

Abbreviation environ := (gmap string string).

Definition getenv (e : environ) (k : string) : option string := e !! k.

Definition getenv_default (e : environ) (k d : string) : string :=
  default d (e !! k).

Definition SUBREDDIT_NAME (e : environ) : string :=
  getenv_default e "SUBREDDIT_NAME" "test_automation_jobs".
Definition REDDIT_CLIENT_ID (e : environ) := getenv e "REDDIT_CLIENT_ID".
Definition REDDIT_CLIENT_SECRET (e : environ) := getenv e "REDDIT_CLIENT_SECRET".
Definition REDDIT_REFRESH_TOKEN (e : environ) := getenv e "REDDIT_REFRESH_TOKEN".
Definition APP_ID (e : environ) : string := getenv_default e "APP_ID" "default-app-id".

(** ** Client handles *)

Inductive firestore_client := FirestoreClient.
Inductive reddit_client := RedditClient.

(** Both branches of [initialize_firestore] build a client and return it;
    both [except] clauses return [None]. *)
Definition initialize_firestore (e : environ) : world → option firestore_client * world :=
  λ w, match external EvFirestoreInit w with
       | (Ret _, w') => (Some FirestoreClient, w')
       | (Raise _, w') => (None, w')
       end.

Definition initialize_reddit (e : environ) : world → option reddit_client * world :=
  λ w, if negb (truthy (REDDIT_CLIENT_ID e) && truthy (REDDIT_CLIENT_SECRET e)
                && truthy (REDDIT_REFRESH_TOKEN e))
       then (None, w)
       else match external EvRedditInit w with
            | (Ret _, w') => (Some RedditClient, w')
            | (Raise _, w') => (None, w')
            end.

(** ** Firestore operations *)

Definition get_firestore_collection_path (e : environ) : string :=
  "artifacts/" +:+ APP_ID e +:+ "/public/data/reddit_posts".

(** The server replaces the sentinel by its own time when it applies a write. *)
Definition resolve (t : Z) (v : value) : value :=
  match v with
  | SERVER_TIMESTAMP => VTimestamp t
  | _ => v
  end.

(** [doc_ref.get()]: [None] stands for a snapshot with [exists] false. *)
Definition doc_get (post_id : string) : M (option doc) :=
  let* _ := external (EvGet post_id) in
  λ w, (Ret (docs w !! post_id), w).

(** [doc_ref.set(data)]: creates or replaces the whole document. *)
Definition doc_set (post_id : string) (data : doc) : M unit :=
  let* _ := external (EvSet post_id) in
  λ w, (Ret tt, with_docs (λ ds, <[post_id := resolve (server_time w) <$> data]> ds) w).

(** The text of the [NotFound] that [update] raises on a missing document. *)
Definition NotFound (post_id : string) : string :=
  "404 No document to update: " +:+ post_id.

(** [doc_ref.update(fields)]: the named fields are written over the stored
    document, the others are kept; a missing document is an error.  Keys are
    taken as plain field names. *)
Definition doc_update (post_id : string) (fields : doc) : M unit :=
  let* _ := external (EvUpdate post_id) in
  λ w, match docs w !! post_id with
       | None => (Raise (NotFound post_id), w)
       | Some d =>
           (Ret tt,
            with_docs (λ ds, <[post_id := (resolve (server_time w) <$> fields) ∪ d]> ds) w)
       end.

Definition has_status (s : string) (d : doc) : bool :=
  match d !! "status" with
  | Some v => value_eq_str v s
  | None => false
  end.

(** [collection_ref.where("status", "==", s).limit(n).stream()] *)
Definition where_status_limit (s : string) (n : nat) : M (list (string * doc)) :=
  let* _ := external EvQuery in
  λ w, (Ret (take n (List.filter (λ kd, has_status s kd.2) (map_to_list (docs w)))), w).

(** [collection_ref.stream()] *)
Definition stream_all : M (list (string * doc)) :=
  let* _ := external EvStream in
  λ w, (Ret (map_to_list (docs w)), w).

(** [subreddit.new(limit=n)] *)
Definition subreddit_new (n : nat) : M (list feed_item) :=
  let* _ := external EvSubredditNew in
  λ w, (Ret (take n (listing w)), w).

(** ** [fetch_or_initialize_post] *)

Definition new_post_data (data : doc) : M doc :=
  let* t := getitem data "title" in
  let* b := getitem data "body" in
  let* u := getitem data "url" in
  let* a := getitem data "author" in
  let* c := getitem data "created_utc" in
  mret (<["title" := t]> (<["body" := b]> (<["url" := u]> (<["author" := a]>
       (<["created_utc" := c]> (<["status" := VStr (PostStatus_value NEW)]>
       (<["analysis_result" := VNull]> (<["deployment_id" := VNull]>
       (<["ingested_at" := SERVER_TIMESTAMP]> ∅))))))))).

Definition fetch_or_initialize_post (db : firestore_client) (post_id : string)
    (data : doc) : M doc :=
  let* d := doc_get post_id in
  match d with
  | Some existing => mret existing
  | None =>
      let* npd := new_post_data data in
      let* _ := doc_set post_id npd in
      mret npd
  end.

(** ** [run_agent_cycle] *)

Inductive cycle_result :=
| CycleError (message : string)
| CycleSuccess (new_posts_found approved_posts_count : nat) (timestamp : Z).

Definition post_data_of (s : submission) : doc :=
  <["title" := VStr (title s)]> (<["body" := VStr (selftext s)]>
  (<["url" := VStr (url s)]> (<["author" := VStr (py_str (author s))]>
  (<["created_utc" := VNum (created_utc s)]> ∅)))).

(** The [for submission in subreddit.new(limit=25)] loop, with the counter
    as accumulator. *)
Fixpoint ingest_loop (db : firestore_client) (items : list feed_item)
    (new_posts_found : nat) : M nat :=
  match items with
  | [] => mret new_posts_found
  | Broken msg :: _ => raise msg
  | Item s :: rest =>
      if stickied s || truthy (removed_by_category s) then
        ingest_loop db rest new_posts_found
      else if negb (is_self s) then
        ingest_loop db rest new_posts_found
      else
        let* post_doc := fetch_or_initialize_post db (sub_id s) (post_data_of s) in
        let* st := getitem post_doc "status" in
        if value_eq_str st (PostStatus_value NEW)
        then ingest_loop db rest (S new_posts_found)
        else ingest_loop db rest new_posts_found
  end.

(** The body of the [try] block. *)
Definition cycle_body (db : firestore_client) (reddit : reddit_client) : M cycle_result :=
  let* approved_posts := where_status_limit (PostStatus_value APPROVED) 5 in
  let approved_count := length approved_posts in
  let* items := subreddit_new 25 in
  let* new_posts_found := ingest_loop db items 0 in
  λ w, (Ret (CycleSuccess new_posts_found approved_count (utcnow w)), w).

Definition run_agent_cycle (db : option firestore_client) (reddit : option reddit_client)
    : world → cycle_result * world :=
  λ w, match db, reddit with
       | Some db, Some reddit =>
           match cycle_body db reddit w with
           | (Ret r, w') => (r, w')
           | (Raise msg, w') => (CycleError msg, w')
           end
       | _, _ => (CycleError "Connection failed", w)
       end.

(** ** HTTP layer *)

(** What [request.get_json()] gives the handler: a dict, or anything else
    (no JSON body, a JSON list, [null], ...), for which the first use of the
    body as a dict raises the given exception. *)
Inductive payload :=
| JObject (data : doc)
| JOther (msg : string).

Record request := {
  x_api_key : option string;         (* request.headers.get('X-API-Key') *)
  json : payload;
}.

Inductive body :=
| BError (error : string)
| BCycle (result : cycle_result)
| BHealth (timestamp : Z)
| BPosts (posts : list doc) (count : nat)
| BPost (post : doc)
| BUpdated (post_id : string).

Record response := { content : body; code : nat }.

Definition jsonify (b : body) (c : nat) : response := {| content := b; code := c |}.

Definition handler : Type := request → world → response * world.

(** The decorator: the wrapped view runs only when the configured key is
    non-empty and the header equals it. *)
Definition require_api_key (e : environ) (f : handler) : handler :=
  λ req w,
    let api_key := x_api_key req in
    let expected_key := getenv e "API_KEY" in
    if negb (truthy expected_key) || py_ne api_key expected_key
    then (jsonify (BError "Unauthorized") 401, w)
    else f req w.

Definition health_check : handler :=
  λ _ w, (jsonify (BHealth (utcnow w)) 200, w).

Definition run_agent (e : environ) : handler :=
  require_api_key e (λ _ w,
    let '(db, w1) := initialize_firestore e w in
    let '(reddit, w2) := initialize_reddit e w1 in
    let '(result, w3) := run_agent_cycle db reddit w2 in
    match result with
    | CycleError _ => (jsonify (BCycle result) 500, w3)
    | CycleSuccess _ _ _ => (jsonify (BCycle result) 200, w3)
    end).

(** [post_data = doc.to_dict(); post_data['id'] = doc.id] *)
Definition with_id (kd : string * doc) : doc := <["id" := VStr kd.1]> kd.2.

(** A view body under [try ... except Exception as e: return error, 500]. *)
Definition guarded (m : M response) : world → response * world :=
  λ w, match m w with
       | (Ret r, w') => (r, w')
       | (Raise msg, w') => (jsonify (BError msg) 500, w')
       end.

Definition get_posts (e : environ) : handler :=
  require_api_key e (λ _ w,
    let '(db, w1) := initialize_firestore e w in
    match db with
    | None => (jsonify (BError "Database connection failed") 500, w1)
    | Some _ =>
        guarded (let* ds := stream_all in
                 let posts := with_id <$> ds in
                 mret (jsonify (BPosts posts (length posts)) 200)) w1
    end).

Definition get_post (e : environ) (post_id : string) : handler :=
  require_api_key e (λ _ w,
    let '(db, w1) := initialize_firestore e w in
    match db with
    | None => (jsonify (BError "Database connection failed") 500, w1)
    | Some _ =>
        guarded (let* d := doc_get post_id in
                 match d with
                 | None => mret (jsonify (BError "Post not found") 404)
                 | Some post_data => mret (jsonify (BPost (with_id (post_id, post_data))) 200)
                 end) w1
    end).

Definition get_json (req : request) : M doc :=
  match json req with
  | JObject data => mret data
  | JOther msg => raise msg
  end.

(** [[status.value for status in PostStatus]] *)
Definition valid_statuses : list string := PostStatus_value <$> PostStatus_members.

(** [x in l] for a list of strings. *)
Definition value_in (v : value) (l : list string) : bool := existsb (value_eq_str v) l.

(** [repr] of a list of strings without quotes or backslashes. *)
Definition py_repr (l : list string) : string :=
  "[" +:+ String.concat ", " ((λ s, "'" +:+ s +:+ "'") <$> l) +:+ "]".

Definition update_post_body (post_id : string) (req : request) : M response :=
  let* data := get_json req in
  let update :=
    let* _ := doc_update post_id (<["updated_at" := SERVER_TIMESTAMP]> data) in
    mret (jsonify (BUpdated post_id) 200) in
  match data !! "status" with
  | Some st =>
      if negb (value_in st valid_statuses)
      then mret (jsonify (BError ("Invalid status. Must be one of " +:+ py_repr valid_statuses)) 400)
      else update
  | None => update
  end.

Definition update_post (e : environ) (post_id : string) : handler :=
  require_api_key e (λ req w,
    let '(db, w1) := initialize_firestore e w in
    match db with
    | None => (jsonify (BError "Database connection failed") 500, w1)
    | Some _ => guarded (update_post_body post_id req) w1
    end).

(** The routes of the Flask app. *)
Inductive endpoint :=
| Health
| RunAgent
| Posts
| PostGet (post_id : string)
| PostPut (post_id : string).

Definition serve (e : environ) (ep : endpoint) : handler :=
  match ep with
  | Health => health_check
  | RunAgent => run_agent e
  | Posts => get_posts e
  | PostGet post_id => get_post e post_id
  | PostPut post_id => update_post e post_id
  end.

(** ** [api/config.py] *)

Module Config.
Section get_config.
(** [json.loads], with [None] for [JSONDecodeError]; [J] is the type of
    decoded JSON values. *)
Context {J : Type} (json_loads : string → option J).

Inductive body :=
| BError (error : string)
| BConfig (config : J).

Record response := { content : body; code : nat }.

Definition get_config (e : environ) : response :=
  let firebase_config_json := getenv e "FIREBASE_CONFIG_JSON" in
  let not_found :=
    {| content := BError "Firebase configuration not found in environment variables.";
       code := 500 |} in
  if negb (truthy firebase_config_json) then not_found
  else
    match firebase_config_json with
    | None => not_found             (* not reached: [None] is falsy *)
    | Some text =>
        match json_loads text with
        | Some config => {| content := BConfig config; code := 200 |}
        | None =>
            {| content :=
                 BError "Firebase configuration environment variable is not valid JSON.";
               code := 500 |}
        end
    end.
End get_config.
End Config.

(** ** Predicates used in the statements *)

(** The two [continue] tests of the ingestion loop, taken together. *)
Definition skipped (s : submission) : bool :=
  stickied s || truthy (removed_by_category s) || negb (is_self s).

(** The part of the world that no handler writes to. *)
Definition same_surroundings (w w' : world) : Prop :=
  listing w' = listing w ∧ server_time w' = server_time w ∧ utcnow w' = utcnow w.

(** [w'] extends the collection of [w]: every stored document is still
    there, unchanged. *)
Definition keeps_docs (w w' : world) : Prop :=
  ∀ post_id d, docs w !! post_id = Some d → docs w' !! post_id = Some d.

(** Stored documents with status [Approved], as the first query sees them. *)
Definition approved_docs (w : world) : list (string * doc) :=
  List.filter (λ kd, has_status (PostStatus_value APPROVED) kd.2) (map_to_list (docs w)).

(** Conditions under which nothing in a cycle can raise: no external call
    is scheduled to fail, every stored document has a [status] field, and
    the batch holds no unreadable element. *)
Definition healthy (w : world) : Prop :=
  faults w = [] ∧
  (∀ post_id d, docs w !! post_id = Some d → is_Some (d !! "status")) ∧
  (∀ msg, Broken msg ∉ take 25 (listing w)).

(** The events a cycle may log: the query, the listing fetch, and lookups
    and writes for submissions of the batch that passed both filters. *)
Definition cycle_event (w : world) (ev : event) : Prop :=
  ev = EvQuery ∨ ev = EvSubredditNew ∨
  ∃ s, Item s ∈ take 25 (listing w) ∧ skipped s = false ∧
       (ev = EvGet (sub_id s) ∨ ev = EvSet (sub_id s)).

(** The request carries the configured, non-empty key. *)
Definition authorized (e : environ) (req : request) : Prop :=
  ∃ key, key ≠ "" ∧ getenv e "API_KEY" = Some key ∧ x_api_key req = Some key.

(** The status of a request body, when it has one, is a member of the enum. *)
Definition status_ok (data : doc) : Prop :=
  ∀ st, data !! "status" = Some st → ∃ s : PostStatus, st = VStr (PostStatus_value s).

(** The document that [update] leaves under the id: the payload and the
    timestamp written over the stored fields. *)
Definition merged (t : Z) (data d : doc) : doc :=
  (resolve t <$> <["updated_at" := SERVER_TIMESTAMP]> data) ∪ d.

(** ** Sample data *)

Definition the_db : option firestore_client := Some FirestoreClient.
Definition the_reddit : option reddit_client := Some RedditClient.

Definition empty_world : world :=
  {| docs := ∅; listing := []; server_time := 1000; utcnow := 2000;
     faults := []; log := [] |}.

Definition with_listing (l : list feed_item) (w : world) : world :=
  {| docs := docs w; listing := l; server_time := server_time w;
     utcnow := utcnow w; faults := faults w; log := log w |}.

Definition self_post (i : string) : submission :=
  {| sub_id := i; title := "Hiring"; selftext := "text"; url := "https://r/" +:+ i;
     author := Some "alice"; created_utc := 17; stickied := false;
     removed_by_category := None; is_self := true |}.

Definition sticky_post (i : string) : submission :=
  {| sub_id := i; title := "Rules"; selftext := "read me"; url := "https://r/" +:+ i;
     author := None; created_utc := 3; stickied := true;
     removed_by_category := None; is_self := true |}.

Definition link_post (i : string) : submission :=
  {| sub_id := i; title := "Look"; selftext := ""; url := "https://example.org";
     author := Some "bob"; created_utc := 5; stickied := false;
     removed_by_category := None; is_self := false |}.

(** A text submission whose [removed_by_category] is the empty string. *)
Definition blank_category_post (i : string) : submission :=
  {| sub_id := i; title := "Hiring"; selftext := "text"; url := "https://r/" +:+ i;
     author := Some "carol"; created_utc := 9; stickied := false;
     removed_by_category := Some ""; is_self := true |}.

(** An empty store facing one fresh text submission. *)
Definition one_post_world : world := with_listing [Item (self_post "p1")] empty_world.

(** The same world after one cycle. *)
Definition after_first_cycle : world := (run_agent_cycle the_db the_reddit one_post_world).2.

Definition mixed_world : world :=
  with_listing [Item (sticky_post "s1"); Item (link_post "l1"); Item (self_post "p1")]
    empty_world.

Definition blank_category_world : world :=
  with_listing [Item (blank_category_post "b1")] empty_world.

Definition sample_environ : environ := {["API_KEY" := "secret"]}.

(** A request carrying the key of [sample_environ] and a dict body. *)
Definition keyed_request (data : doc) : request :=
  {| x_api_key := Some "secret"; json := JObject data |}.

Definition bogus_status : doc := {["status" := VStr "Bogus"]}.
Definition approve : doc := {["status" := VStr "Approved"]}.

(** A decoder that knows the three JSON literals, to run [get_config] on. *)
Definition literal_loads (s : string) : option value :=
  if String.eqb s "null" then Some VNull
  else if String.eqb s "true" then Some (VBool true)
  else if String.eqb s "false" then Some (VBool false)
  else None.

Definition config_environ : environ := {["FIREBASE_CONFIG_JSON" := "true"]}.

(** A server whose [API_KEY] is set to the empty string, and a request whose
    header is the empty string too. *)
Definition blank_key_environ : environ := {["API_KEY" := ""]}.
Definition blank_key_request : request := {| x_api_key := Some ""; json := JOther "no body" |}.
Definition keyless_request : request := {| x_api_key := None; json := JOther "no body" |}.

(** ** Further predicates *)

(** Whether the loop counts a fetched submission, given the collection it
    starts from: it is not skipped, and its record — the stored one, or the
    fresh one when there is none — has status [New]. *)
Definition counted (ds : gmap string doc) (s : submission) : bool :=
  negb (skipped s) &&
  match ds !! sub_id s with
  | Some d => has_status (PostStatus_value NEW) d
  | None => true
  end.

Definition count_new (ds : gmap string doc) (items : list feed_item) : nat :=
  length (List.filter (λ it, match it with Item s => counted ds s | Broken _ => false end)
            items).

(** The record stored for a submission ingested at server time [t]:
    [new_post_data] of its [post_data], with the sentinel resolved. *)
Definition initial_record (t : Z) (s : submission) : doc :=
  <["title" := VStr (title s)]> (<["body" := VStr (selftext s)]>
  (<["url" := VStr (url s)]> (<["author" := VStr (py_str (author s))]>
  (<["created_utc" := VNum (created_utc s)]> (<["status" := VStr "New"]>
  (<["analysis_result" := VNull]> (<["deployment_id" := VNull]>
  (<["ingested_at" := VTimestamp t]> ∅)))))))).

(** The endpoints that open the store themselves. *)
Definition store_backed (ep : endpoint) : Prop :=
  match ep with
  | Posts | PostGet _ | PostPut _ => True
  | Health | RunAgent => False
  end.


(** * Properties *)

(** ** The monad and the primitives *)

Lemma mbind_inv {A B} (m : M A) (k : A → M B) w r w' :
  mbind m k w = (r, w') →
  (∃ a w1, m w = (Ret a, w1) ∧ k a w1 = (r, w')) ∨
  (∃ msg, m w = (Raise msg, w') ∧ r = Raise msg).
Proof.
  unfold mbind. destruct (m w) as [[a|msg] w1]; intros H.
  - left. eauto.
  - right. exists msg. by simplify_eq.
Qed.

Lemma doc_get_eq post_id w :
  doc_get post_id w =
    (match next_fault w with
     | Some msg => Raise msg
     | None => Ret (docs w !! post_id)
     end, advance (EvGet post_id) w).
Proof. unfold doc_get, mbind, external. by destruct (next_fault w). Qed.

Lemma doc_set_eq post_id data w :
  doc_set post_id data w =
    match next_fault w with
    | Some msg => (Raise msg, advance (EvSet post_id) w)
    | None =>
        (Ret tt,
         with_docs (λ ds, <[post_id := resolve (server_time w) <$> data]> ds)
           (advance (EvSet post_id) w))
    end.
Proof. unfold doc_set, mbind, external. by destruct (next_fault w). Qed.

Lemma doc_update_eq post_id fields w :
  doc_update post_id fields w =
    match next_fault w with
    | Some msg => (Raise msg, advance (EvUpdate post_id) w)
    | None =>
        match docs w !! post_id with
        | None => (Raise (NotFound post_id), advance (EvUpdate post_id) w)
        | Some d =>
            (Ret tt,
             with_docs (λ ds, <[post_id := (resolve (server_time w) <$> fields) ∪ d]> ds)
               (advance (EvUpdate post_id) w))
        end
    end.
Proof. unfold doc_update, mbind, external. by destruct (next_fault w). Qed.

Lemma getitem_inv d k w r w' :
  getitem d k w = (r, w') →
  w' = w ∧ ∀ v, r = Ret v → d !! k = Some v.
Proof.
  unfold getitem, mret, raise. destruct (d !! k); intros ?; simplify_eq; split; try done.
  by intros ? [= ->].
Qed.

(** [new_post_data] touches nothing, and what it returns is the record of
    the five captured fields with status [New]. *)
Lemma new_post_data_inv data w r w' :
  new_post_data data w = (r, w') →
  w' = w ∧
  ∀ npd, r = Ret npd →
    ∃ t b u a c,
      data !! "title" = Some t ∧ data !! "body" = Some b ∧ data !! "url" = Some u ∧
      data !! "author" = Some a ∧ data !! "created_utc" = Some c ∧
      npd = <["title" := t]> (<["body" := b]> (<["url" := u]> (<["author" := a]>
            (<["created_utc" := c]> (<["status" := VStr (PostStatus_value NEW)]>
            (<["analysis_result" := VNull]> (<["deployment_id" := VNull]>
            (<["ingested_at" := SERVER_TIMESTAMP]> ∅)))))))).
Proof.
  unfold new_post_data, mbind, getitem, mret, raise.
  destruct (data !! "title") as [t|]; [|intros [= <- <-]; by split].
  destruct (data !! "body") as [b|]; [|intros [= <- <-]; by split].
  destruct (data !! "url") as [u|]; [|intros [= <- <-]; by split].
  destruct (data !! "author") as [a|]; [|intros [= <- <-]; by split].
  destruct (data !! "created_utc") as [c|]; [|intros [= <- <-]; by split].
  intros [= <- <-]. split; [done|]. intros npd [= <-]. by exists t, b, u, a, c.
Qed.

(** ** [fetch_or_initialize_post] *)

Lemma fetch_existing db post_id data w existing :
  docs w !! post_id = Some existing →
  fetch_or_initialize_post db post_id data w =
    (match next_fault w with Some msg => Raise msg | None => Ret existing end,
     advance (EvGet post_id) w).
Proof.
  intros Hd. unfold fetch_or_initialize_post, mbind. rewrite doc_get_eq, Hd.
  by destruct (next_fault w).
Qed.

(** The ways a call on an absent id can end: the lookup fails, [data] lacks
    a key, the write fails, or the fresh record is written and returned. *)
Lemma fetch_absent_inv db post_id data w r w' :
  docs w !! post_id = None →
  fetch_or_initialize_post db post_id data w = (r, w') →
  (∃ msg, r = Raise msg ∧ docs w' = docs w) ∨
  (∃ npd, r = Ret npd ∧ new_post_data data w = (Ret npd, w) ∧
          next_fault w = None ∧ next_fault (advance (EvGet post_id) w) = None ∧
          w' = with_docs (λ ds, <[post_id := resolve (server_time w) <$> npd]> ds)
                 (advance (EvSet post_id) (advance (EvGet post_id) w))).
Proof.
  intros Hd. unfold fetch_or_initialize_post, mbind at 1. rewrite doc_get_eq, Hd.
  destruct (next_fault w) as [msg|] eqn:Hf.
  { intros [= <- <-]. left. by exists msg. }
  set (w1 := advance (EvGet post_id) w).
  unfold mbind at 1.
  destruct (new_post_data data w1) as [[npd|msg] w2] eqn:Hn.
  2:{ intros [= <- <-]. left. exists msg. split; [done|].
      by destruct (new_post_data_inv _ _ _ _ Hn) as [-> _]. }
  destruct (new_post_data_inv _ _ _ _ Hn) as [-> Hnpd].
  unfold mbind. rewrite doc_set_eq.
  destruct (next_fault w1) as [msg|] eqn:Hf1.
  { intros [= <- <-]. left. by exists msg. }
  intros [= <- <-]. right. exists npd. split_and!; try done.
  destruct (Hnpd npd eq_refl) as (t & b & u & a & c & Ht & Hb & Hu & Ha & Hc & ->).
  unfold new_post_data, mbind, getitem, mret. by rewrite Ht, Hb, Hu, Ha, Hc.
Qed.

(** With nothing scheduled to fail and the five keys in [data], the call on
    an absent id does return the fresh record. *)
Lemma fetch_absent_returns db post_id data w t b u a c :
  docs w !! post_id = None →
  faults w = [] →
  data !! "title" = Some t → data !! "body" = Some b → data !! "url" = Some u →
  data !! "author" = Some a → data !! "created_utc" = Some c →
  ∃ npd w', fetch_or_initialize_post db post_id data w = (Ret npd, w').
Proof.
  intros Hd Hf Ht Hb Hu Ha Hc.
  unfold fetch_or_initialize_post, mbind at 1. rewrite doc_get_eq, Hd.
  unfold next_fault. rewrite Hf.
  unfold mbind at 1, new_post_data, mbind, getitem, mret.
  rewrite Ht, Hb, Hu, Ha, Hc. rewrite doc_set_eq.
  unfold next_fault, advance. cbn. rewrite Hf. cbn. eauto.
Qed.


(** ** The ingestion loop *)

Lemma same_surroundings_refl w : same_surroundings w w.
Proof. done. Qed.

Lemma same_surroundings_trans w1 w2 w3 :
  same_surroundings w1 w2 → same_surroundings w2 w3 → same_surroundings w1 w3.
Proof. unfold same_surroundings. intros (-> & -> & ->) (-> & -> & ->). done. Qed.

Lemma same_surroundings_advance ev w : same_surroundings w (advance ev w).
Proof. done. Qed.

Lemma keeps_docs_refl w : keeps_docs w w.
Proof. by intros ? ?. Qed.

Lemma keeps_docs_trans w1 w2 w3 : keeps_docs w1 w2 → keeps_docs w2 w3 → keeps_docs w1 w3.
Proof. unfold keeps_docs. eauto. Qed.

Lemma keeps_docs_same w w' : docs w' = docs w → keeps_docs w w'.
Proof. intros Heq ? ?. by rewrite Heq. Qed.

Create HintDb frame.
#[local] Hint Resolve same_surroundings_refl same_surroundings_advance
  keeps_docs_refl keeps_docs_same : frame.

(** Closes [docs w !! j = None → is_Some (docs w' !! j) → _] when [w'] has
    the collection of [w]. *)
Ltac no_new_doc :=
  let Hj := fresh in let Hs := fresh in
  intros ? Hj [? Hs]; cbn in Hs; congruence.

(** The routine conjuncts of an effect lemma. *)
Ltac frame_step :=
  first [ done | by eauto with frame | no_new_doc
        | by (intros ? ->%list_elem_of_singleton; eauto) ].

(** What one call of [fetch_or_initialize_post] does to the world: it logs
    lookups and writes of its own id only, keeps every stored document, and
    a document appears only under its id, by a logged write. *)
Lemma fetch_effect db post_id data w r w' :
  fetch_or_initialize_post db post_id data w = (r, w') →
  ∃ evs, log w' = evs ++ log w ∧
    (∀ ev, ev ∈ evs → ev = EvGet post_id ∨ ev = EvSet post_id) ∧
    keeps_docs w w' ∧
    (∀ j, docs w !! j = None → is_Some (docs w' !! j) → j = post_id ∧ EvSet post_id ∈ evs) ∧
    same_surroundings w w'.
Proof.
  intros Hrun. destruct (docs w !! post_id) as [existing|] eqn:Hd.
  - rewrite (fetch_existing _ _ _ _ _ Hd) in Hrun. injection Hrun as <- <-.
    exists [EvGet post_id]. split_and!; frame_step.
  - destruct (fetch_absent_inv _ _ _ _ _ _ Hd Hrun)
      as [(msg & -> & Hdocs)|(npd & -> & Hn & Hf & Hf1 & ->)].
    + unfold fetch_or_initialize_post, mbind at 1 in Hrun.
      rewrite doc_get_eq, Hd in Hrun.
      destruct (next_fault w) eqn:Hf.
      { injection Hrun as <- <-. exists [EvGet post_id]. split_and!; frame_step. }
      unfold mbind at 1 in Hrun.
      destruct (new_post_data data _) as [[npd|msg'] w2] eqn:Hn.
      2:{ destruct (new_post_data_inv _ _ _ _ Hn) as [-> _]. injection Hrun as <- <-.
          exists [EvGet post_id]. split_and!; frame_step. }
      destruct (new_post_data_inv _ _ _ _ Hn) as [-> _].
      unfold mbind in Hrun. rewrite doc_set_eq in Hrun.
      destruct (next_fault (advance _ w)); [|done].
      injection Hrun as <- <-.
      exists [EvSet post_id; EvGet post_id]. split_and!; try frame_step.
      intros ev Hev. set_solver.
    + exists [EvSet post_id; EvGet post_id]. split_and!; try done.
      * intros ev Hev. set_solver.
      * intros j d Hj. cbn. rewrite lookup_insert_ne; [done|congruence].
      * cbn. intros j Hj Hs. destruct (decide (j = post_id)) as [->|Hne].
        -- split; [done|set_solver].
        -- rewrite lookup_insert_ne in Hs; [|done]. rewrite Hj in Hs. by destruct Hs.
Qed.

(** The loop as a whole: every lookup and write it logs is for a submission
    of the batch that passed both filters; stored documents are kept; a new
    document comes with a logged write. *)
Lemma ingest_loop_effect db items n w r w' :
  ingest_loop db items n w = (r, w') →
  ∃ evs, log w' = evs ++ log w ∧
    (∀ ev, ev ∈ evs →
       ∃ s, Item s ∈ items ∧ skipped s = false ∧
            (ev = EvGet (sub_id s) ∨ ev = EvSet (sub_id s))) ∧
    keeps_docs w w' ∧
    (∀ j, docs w !! j = None → is_Some (docs w' !! j) → EvSet j ∈ evs) ∧
    same_surroundings w w'.
Proof.
  revert n w. induction items as [|[s|msg] rest IH]; intros n w; cbn.
  - intros [= <- <-]. exists []. split_and!; try frame_step.
    intros ev Hev. by apply elem_of_nil in Hev.
  - assert (Hskip : ∀ m, ingest_loop db rest m w = (r, w') →
      ∃ evs, log w' = evs ++ log w ∧
        (∀ ev, ev ∈ evs →
           ∃ s0, Item s0 ∈ Item s :: rest ∧ skipped s0 = false ∧
                 (ev = EvGet (sub_id s0) ∨ ev = EvSet (sub_id s0))) ∧
        keeps_docs w w' ∧
        (∀ j, docs w !! j = None → is_Some (docs w' !! j) → EvSet j ∈ evs) ∧
        same_surroundings w w').
    { intros m Hm. destruct (IH _ _ Hm) as (evs & Hlog & Hev & ?).
      exists evs. split_and!; try tauto.
      intros ev Hin. destruct (Hev ev Hin) as (s0 & ? & ?). exists s0. set_solver. }
    destruct (stickied s || truthy (removed_by_category s)) eqn:H1; [by apply Hskip|].
    destruct (is_self s) eqn:H2; cbn; [|by apply Hskip].
    assert (Hpass : skipped s = false).
    { unfold skipped. by rewrite H1, H2. }
    intros Hrun. apply mbind_inv in Hrun as [(post_doc & w1 & Hf & Hrun)|(msg & Hf & ->)].
    2:{ destruct (fetch_effect _ _ _ _ _ _ Hf) as (evs & Hlog & Hev & Hk & Hc & Hs).
        exists evs. split_and!; try done.
        - intros ev Hin. exists s. split_and!; [set_solver|done|by apply Hev].
        - intros j Hj Hsome. by destruct (Hc j Hj Hsome) as [-> ?]. }
    destruct (fetch_effect _ _ _ _ _ _ Hf) as (evs1 & Hlog1 & Hev1 & Hk1 & Hc1 & Hs1).
    apply mbind_inv in Hrun as [(st & w2 & Hg & Hrun)|(msg & Hg & ->)].
    2:{ destruct (getitem_inv _ _ _ _ _ Hg) as [-> _].
        exists evs1. split_and!; try done.
        - intros ev Hin. exists s. split_and!; [set_solver|done|by apply Hev1].
        - intros j Hj Hsome. by destruct (Hc1 j Hj Hsome) as [-> ?]. }
    destruct (getitem_inv _ _ _ _ _ Hg) as [-> _].
    assert (∃ m, ingest_loop db rest m w1 = (r, w')) as [m Hm].
    { revert Hrun. destruct (value_eq_str st _); eauto. }
    destruct (IH _ _ Hm) as (evs2 & Hlog2 & Hev2 & Hk2 & Hc2 & Hs2).
    exists (evs2 ++ evs1). split_and!.
    + by rewrite Hlog2, Hlog1, app_assoc.
    + intros ev [Hin|Hin]%elem_of_app.
      * destruct (Hev2 ev Hin) as (s0 & ? & ?). exists s0. set_solver.
      * exists s. split_and!; [set_solver|done|by apply Hev1].
    + by eapply keeps_docs_trans.
    + intros j Hj Hsome. apply elem_of_app.
      destruct (docs w1 !! j) as [d|] eqn:Hj1.
      * right. destruct (Hc1 j Hj) as [Heq Hin]; [by rewrite Hj1|]. by rewrite Heq.
      * left. by apply Hc2.
    + by eapply same_surroundings_trans.
  - intros [= <- <-]. exists []. split_and!; try frame_step.
    intros ev Hev. by apply elem_of_nil in Hev.
Qed.

(** ** The cycle *)

Lemma where_status_limit_eq st n w :
  where_status_limit st n w =
    (match next_fault w with
     | Some msg => Raise msg
     | None => Ret (take n (List.filter (λ kd, has_status st kd.2) (map_to_list (docs w))))
     end, advance EvQuery w).
Proof. unfold where_status_limit, mbind, external. by destruct (next_fault w). Qed.

Lemma subreddit_new_eq n w :
  subreddit_new n w =
    (match next_fault w with
     | Some msg => Raise msg
     | None => Ret (take n (listing w))
     end, advance EvSubredditNew w).
Proof. unfold subreddit_new, mbind, external. by destruct (next_fault w). Qed.

Lemma cycle_body_effect db reddit w r w' :
  cycle_body db reddit w = (r, w') →
  ∃ evs, log w' = evs ++ log w ∧
    (∀ ev, ev ∈ evs → cycle_event w ev) ∧
    keeps_docs w w' ∧
    (∀ j, docs w !! j = None → is_Some (docs w' !! j) → EvSet j ∈ evs) ∧
    same_surroundings w w'.
Proof.
  unfold cycle_body. intros Hrun.
  apply mbind_inv in Hrun as [(approved & w1 & Hq & Hrun)|(msg & Hq & ->)];
    rewrite where_status_limit_eq in Hq; injection Hq as Hq <-.
  2:{ exists [EvQuery]. split_and!; try frame_step.
      intros ev ->%list_elem_of_singleton. by left. }
  apply mbind_inv in Hrun as [(items & w2 & Hn & Hrun)|(msg & Hn & ->)];
    rewrite subreddit_new_eq in Hn; injection Hn as Hn <-.
  2:{ exists [EvSubredditNew; EvQuery]. split_and!; try frame_step.
      intros ev Hev. unfold cycle_event. set_solver. }
  assert (Hitems : items = take 25 (listing w)).
  { destruct (next_fault (advance EvQuery w)); by simplify_eq. }
  set (w2 := advance EvSubredditNew (advance EvQuery w)) in *.
  assert (∃ rl, ingest_loop db items 0 w2 = (rl, w')) as [rl Hl].
  { apply mbind_inv in Hrun as [(n & w3 & Hl & Hrun)|(msg & Hl & ->)]; [|eauto].
    injection Hrun as <- <-. eauto. }
  destruct (ingest_loop_effect _ _ _ _ _ _ Hl) as (evs & Hlog & Hev & Hk & Hc & Hs).
  exists (evs ++ [EvSubredditNew; EvQuery]). split_and!.
  - rewrite Hlog. by rewrite <- app_assoc.
  - intros ev [Hin|Hin]%elem_of_app.
    + right. right. rewrite <- Hitems. by apply Hev.
    + unfold cycle_event. set_solver.
  - done.
  - intros j Hj Hsome. apply elem_of_app. left. by apply Hc.
  - done.
Qed.

Lemma run_agent_cycle_effect db reddit w r w' :
  run_agent_cycle db reddit w = (r, w') →
  ∃ evs, log w' = evs ++ log w ∧
    (∀ ev, ev ∈ evs → cycle_event w ev) ∧
    keeps_docs w w' ∧
    (∀ j, docs w !! j = None → is_Some (docs w' !! j) → EvSet j ∈ evs) ∧
    same_surroundings w w'.
Proof.
  unfold run_agent_cycle. destruct db as [db|], reddit as [reddit|];
    try (intros [= <- <-]; exists []; split_and!; try frame_step;
         intros ev Hev; by apply elem_of_nil in Hev).
  destruct (cycle_body db reddit w) as [[res|msg] w1] eqn:Hb; intros [= <- <-];
    by apply (cycle_body_effect _ _ _ _ _ Hb).
Qed.

Lemma skipped_false s :
  skipped s = false →
  stickied s = false ∧ truthy (removed_by_category s) = false ∧ is_self s = true.
Proof.
  unfold skipped. intros [[? ?]%orb_false_elim ?%negb_false_iff]%orb_false_elim. done.
Qed.

(** C3, as the code has it.  Every store lookup, every store write and every
    change of the collection made by a cycle is for the id of a submission of
    the fetched batch that is not stickied, whose [removed_by_category] is
    falsy ([None] or the empty string) and that is a self post.  So an id
    whose fetched submissions are all stickied, or have a truthy
    [removed_by_category], or are link posts, is neither looked up nor
    written, and its entry in the collection is what it was. *)
Theorem run_agent_cycle_ingests_only_unskipped db reddit w r w' :
  run_agent_cycle db reddit w = (r, w') →
  ∃ evs, log w' = evs ++ log w ∧
    (∀ post_id,
       EvGet post_id ∈ evs ∨ EvSet post_id ∈ evs ∨ docs w' !! post_id ≠ docs w !! post_id →
       ∃ s, Item s ∈ take 25 (listing w) ∧ sub_id s = post_id ∧
            stickied s = false ∧ truthy (removed_by_category s) = false ∧
            is_self s = true) ∧
    (∀ post_id,
       (∀ s, Item s ∈ take 25 (listing w) → sub_id s = post_id →
             stickied s = true ∨ truthy (removed_by_category s) = true ∨ is_self s = false) →
       (EvGet post_id ∉ evs) ∧ (EvSet post_id ∉ evs) ∧
       docs w' !! post_id = docs w !! post_id).
Proof.
  intros Hrun.
  destruct (run_agent_cycle_effect _ _ _ _ _ Hrun) as (evs & Hlog & Hev & Hk & Hc & _).
  exists evs. split; [done|].
  assert (Hlogged : ∀ post_id, EvGet post_id ∈ evs ∨ EvSet post_id ∈ evs →
    ∃ s, Item s ∈ take 25 (listing w) ∧ sub_id s = post_id ∧
         stickied s = false ∧ truthy (removed_by_category s) = false ∧ is_self s = true).
  { intros post_id Hin.
    assert (∃ ev, ev ∈ evs ∧ (ev = EvGet post_id ∨ ev = EvSet post_id))
      as (ev & Hin' & Hshape) by (destruct Hin; eauto).
    destruct (Hev ev Hin') as [->|[->|(s & Hs & Hpass & Hs')]].
    - by destruct Hshape.
    - by destruct Hshape.
    - exists s. split; [done|]. split.
      + destruct Hshape as [->| ->], Hs' as [?|?]; congruence.
      + by apply skipped_false. }
  split.
  2:{ intros post_id Hall.
      assert (Hnone : ¬ (EvGet post_id ∈ evs ∨ EvSet post_id ∈ evs)).
      { intros Hin. destruct (Hlogged _ Hin) as (s & Hs & Hid & H1 & H2 & H3).
        destruct (Hall s Hs Hid) as [?|[?|?]]; congruence. }
      split_and!; [tauto|tauto|].
      destruct (docs w !! post_id) as [d|] eqn:Hd; [by apply Hk|].
      destruct (docs w' !! post_id) as [d'|] eqn:Hd'; [|done].
      exfalso. apply Hnone. right. apply Hc; [done|]. rewrite Hd'. by eexists. }
  intros post_id Htouch.
  assert (EvGet post_id ∈ evs ∨ EvSet post_id ∈ evs) as Hin.
  { destruct Htouch as [?|[?|Hne]]; [by left|by right|]. right.
    destruct (docs w !! post_id) as [d|] eqn:Hd.
    - by rewrite (Hk _ _ Hd) in Hne.
    - apply Hc; [done|]. by destruct (docs w' !! post_id); [eauto|]. }
  by apply Hlogged.
Qed.

Lemma run_agent_cycle_ingests_only_unskipped_witness :
  ∃ evs, log (run_agent_cycle the_db the_reddit mixed_world).2 = evs ++ log mixed_world ∧
    (∀ post_id,
       EvGet post_id ∈ evs ∨ EvSet post_id ∈ evs ∨
       docs (run_agent_cycle the_db the_reddit mixed_world).2 !! post_id
         ≠ docs mixed_world !! post_id →
       ∃ s, Item s ∈ take 25 (listing mixed_world) ∧ sub_id s = post_id ∧
            stickied s = false ∧ truthy (removed_by_category s) = false ∧
            is_self s = true) ∧
    (∀ post_id,
       (∀ s, Item s ∈ take 25 (listing mixed_world) → sub_id s = post_id →
             stickied s = true ∨ truthy (removed_by_category s) = true ∨ is_self s = false) →
       (EvGet post_id ∉ evs) ∧ (EvSet post_id ∉ evs) ∧
       docs (run_agent_cycle the_db the_reddit mixed_world).2 !! post_id
         = docs mixed_world !! post_id).
Proof.
  apply (run_agent_cycle_ingests_only_unskipped the_db the_reddit mixed_world
           (run_agent_cycle the_db the_reddit mixed_world).1).
  vm_compute. reflexivity.
Defined.

(** C3, as stated, fails: a text submission that is not stickied and whose
    [removed_by_category] is the empty string is not [None], yet the test
    [submission.removed_by_category] is false for it and a record is
    written. *)
Lemma blank_category_post_is_ingested :
  let s := blank_category_post "b1" in
  let w' := (run_agent_cycle the_db the_reddit blank_category_world).2 in
  Item s ∈ take 25 (listing blank_category_world) ∧
  removed_by_category s ≠ None ∧
  docs blank_category_world !! sub_id s = None ∧
  is_Some (docs w' !! sub_id s) ∧
  log w' = [EvSet (sub_id s); EvGet (sub_id s); EvSubredditNew; EvQuery].
Proof.
  cbv zeta. split_and!.
  - vm_compute. left.
  - done.
  - done.
  - vm_compute. eauto.
  - vm_compute. reflexivity.
Qed.

(** C1, evaluated on a second pass.  The first cycle on an empty store
    creates the record of the one fetched submission and counts it.  The
    second cycle, with the same listing, creates nothing — its only calls
    are the query, the fetch and one lookup, and the collection is the same
    — and still reports one new post, because the counter tests the status
    of the returned document, which is still [New]. *)
Theorem second_cycle_recounts_existing_new_record :
  (run_agent_cycle the_db the_reddit one_post_world).1 = CycleSuccess 1 0 2000 ∧
  has_status "New" (default ∅ (docs after_first_cycle !! "p1")) = true ∧
  (run_agent_cycle the_db the_reddit after_first_cycle).1 = CycleSuccess 1 0 2000 ∧
  docs (run_agent_cycle the_db the_reddit after_first_cycle).2 = docs after_first_cycle ∧
  log (run_agent_cycle the_db the_reddit after_first_cycle).2 =
    [EvGet "p1"; EvSubredditNew; EvQuery] ++ log after_first_cycle.
Proof. split_and!; vm_compute; reflexivity. Qed.

(** ** The result of a cycle *)

Lemma ingest_loop_count db items n w n' w' :
  ingest_loop db items n w = (Ret n', w') → (n ≤ n' ≤ n + length items)%nat.
Proof.
  revert n w. induction items as [|[s|msg] rest IH]; intros n w; cbn.
  - intros [= <- <-]. lia.
  - assert (Hskip : ingest_loop db rest n w = (Ret n', w') → (n ≤ n' ≤ n + S (length rest))%nat).
    { intros Hm. apply IH in Hm. lia. }
    destruct (stickied s || truthy (removed_by_category s)); [done|].
    destruct (is_self s); cbn; [|done].
    intros Hrun. apply mbind_inv in Hrun as [(post_doc & w1 & Hf & Hrun)|(msg & _ & ?)]; [|done].
    apply mbind_inv in Hrun as [(st & w2 & Hg & Hrun)|(msg & _ & ?)]; [|done].
    revert Hrun. destruct (value_eq_str st _); intros Hm; apply IH in Hm; lia.
  - done.
Qed.

Lemma post_data_of_keys s :
  post_data_of s !! "title" = Some (VStr (title s)) ∧
  post_data_of s !! "body" = Some (VStr (selftext s)) ∧
  post_data_of s !! "url" = Some (VStr (url s)) ∧
  post_data_of s !! "author" = Some (VStr (py_str (author s))) ∧
  post_data_of s !! "created_utc" = Some (VNum (created_utc s)).
Proof. unfold post_data_of. split_and!; by simplify_map_eq. Qed.

(** In a healthy world the loop runs to its end. *)
Lemma ingest_loop_returns db items n w :
  faults w = [] →
  (∀ post_id d, docs w !! post_id = Some d → is_Some (d !! "status")) →
  (∀ msg, Broken msg ∉ items) →
  ∃ n' w', ingest_loop db items n w = (Ret n', w').
Proof.
  revert n w. induction items as [|[s|msg] rest IH]; intros n w Hf Hst Hb; cbn.
  - by eexists _, _.
  - assert (Hb' : ∀ msg, Broken msg ∉ rest).
    { intros msg Hin. apply (Hb msg). by right. }
    destruct (stickied s || truthy (removed_by_category s)); [by apply IH|].
    destruct (is_self s); cbn; [|by apply IH].
    assert (Hnf : next_fault w = None) by (unfold next_fault; by rewrite Hf).
    destruct (docs w !! sub_id s) as [existing|] eqn:Hd.
    + unfold mbind at 1. rewrite (fetch_existing _ _ _ _ _ Hd), Hnf.
      destruct (Hst _ _ Hd) as [st Hstatus].
      unfold mbind, getitem. rewrite Hstatus. unfold mret.
      assert (∀ m, ∃ n' w', ingest_loop db rest m (advance (EvGet (sub_id s)) w) = (Ret n', w'))
        as Hgo.
      { intros m. apply IH; [by unfold advance; cbn; rewrite Hf|done|done]. }
      destruct (value_eq_str st _); apply Hgo.
    + destruct (post_data_of_keys s) as (Ht & Hbd & Hu & Ha & Hc).
      destruct (fetch_absent_returns db _ _ _ _ _ _ _ _ Hd Hf Ht Hbd Hu Ha Hc)
        as (npd & w1 & Hrun).
      unfold mbind at 1. rewrite Hrun.
      destruct (fetch_absent_inv _ _ _ _ _ _ Hd Hrun)
        as [(msg & ? & _)|(npd' & [= <-] & Hn & _ & _ & ->)]; [done|].
      destruct (new_post_data_inv _ _ _ _ Hn) as [_ Hnpd].
      destruct (Hnpd npd eq_refl) as (t & b & u & a & c & _ & _ & _ & _ & _ & Heq).
      assert (Hstatus : npd !! "status" = Some (VStr "New")) by (subst npd; by simplify_map_eq).
      unfold mbind, getitem. rewrite Hstatus. unfold mret. cbn.
      apply IH; [by cbn; rewrite Hf| |done].
      cbn. intros post_id d. destruct (decide (post_id = sub_id s)) as [->|Hne].
      * rewrite lookup_insert_eq. intros [= <-]. rewrite lookup_fmap, Hstatus. by eexists.
      * rewrite lookup_insert_ne; [|done]. apply Hst.
  - exfalso. apply (Hb msg). by left.
Qed.

(** C4. The cycle always comes back with a result value.  Without one of
    the two handles it is the error ['Connection failed'] and nothing is
    touched.  With both, an exception raised anywhere in the body — a failed
    external call, an unreadable submission, a stored document without
    [status] — becomes an error result carrying its text; otherwise the
    result is a success holding the count of new posts (at most the batch
    size), the count of approved posts as queried (at most five) and the
    handler's clock.  The success branch is the one taken in a healthy
    world. *)
Theorem run_agent_cycle_result db reddit w :
  (db = None ∨ reddit = None →
     run_agent_cycle db reddit w = (CycleError "Connection failed", w)) ∧
  (∀ d rd, db = Some d → reddit = Some rd →
     (∀ msg w', cycle_body d rd w = (Raise msg, w') →
        run_agent_cycle db reddit w = (CycleError msg, w')) ∧
     (∀ res w', cycle_body d rd w = (Ret res, w') →
        run_agent_cycle db reddit w = (res, w') ∧
        ∃ n, res = CycleSuccess n (length (take 5 (approved_docs w))) (utcnow w) ∧
             (n ≤ 25)%nat ∧ (length (take 5 (approved_docs w)) ≤ 5)%nat) ∧
     (healthy w → ∃ res w', cycle_body d rd w = (Ret res, w'))).
Proof.
  split.
  { intros [-> | ->]; unfold run_agent_cycle; [done|by destruct db]. }
  intros d rd -> ->. split_and!.
  - intros msg w' Hb. unfold run_agent_cycle. by rewrite Hb.
  - intros res w' Hb. split; [unfold run_agent_cycle; by rewrite Hb|].
    unfold cycle_body in Hb.
    apply mbind_inv in Hb as [(approved & w1 & Hq & Hb)|(msg & _ & ?)]; [|done].
    rewrite where_status_limit_eq in Hq. injection Hq as Hq <-.
    apply mbind_inv in Hb as [(items & w2 & Hn & Hb)|(msg & _ & ?)]; [|done].
    rewrite subreddit_new_eq in Hn. injection Hn as Hn <-.
    apply mbind_inv in Hb as [(n & w3 & Hl & Hb)|(msg & _ & ?)]; [|done].
    injection Hb as <- <-.
    destruct (ingest_loop_effect _ _ _ _ _ _ Hl) as (_ & _ & _ & _ & _ & _ & _ & Hclock).
    apply ingest_loop_count in Hl.
    destruct (next_fault w); [done|]. injection Hq as <-.
    destruct (next_fault (advance EvQuery w)); [done|]. injection Hn as <-.
    exists n. split_and!.
    + by rewrite Hclock.
    + rewrite length_take in Hl. lia.
    + rewrite length_take. lia.
  - intros (Hf & Hst & Hbr). unfold cycle_body, mbind at 1.
    rewrite where_status_limit_eq. unfold next_fault at 1. rewrite Hf.
    unfold mbind at 1. rewrite subreddit_new_eq. unfold next_fault at 1. cbn. rewrite Hf. cbn.
    set (w2 := advance EvSubredditNew (advance EvQuery w)).
    destruct (ingest_loop_returns d (take 25 (listing w)) 0 w2) as (n & w3 & Hl);
      [by cbn; rewrite Hf|done|done|].
    unfold mbind. rewrite Hl. by eexists _, _.
Qed.

(** ** The key check *)

Lemma truthy_true o : truthy o = true ↔ ∃ s, o = Some s ∧ s ≠ "".
Proof.
  destruct o as [s|]; cbn.
  - rewrite negb_true_iff, String.eqb_neq. split; [by eauto|]. by intros (? & [= <-] & ?).
  - split; [done|]. by intros (? & ? & _).
Qed.

Lemma py_ne_false a b : py_ne a b = false ↔ a = b.
Proof.
  destruct a as [x|], b as [y|]; cbn; try (split; done).
  rewrite negb_false_iff, String.eqb_eq. split; congruence.
Qed.

Lemma require_api_key_rejects e f req w :
  truthy (getenv e "API_KEY") = false ∨ x_api_key req ≠ getenv e "API_KEY" →
  require_api_key e f req w = (jsonify (BError "Unauthorized") 401, w).
Proof.
  unfold require_api_key. intros [-> | Hne]; [done|].
  destruct (py_ne (x_api_key req) (getenv e "API_KEY")) eqn:Hpy.
  - by rewrite orb_true_r.
  - by apply py_ne_false in Hpy.
Qed.

Lemma require_api_key_accepts e f req w :
  authorized e req → require_api_key e f req w = f req w.
Proof.
  intros (key & Hkey & He & Hr). unfold require_api_key. rewrite He, Hr. cbn.
  rewrite String.eqb_refl. cbn. by apply String.eqb_neq in Hkey as ->.
Qed.

Lemma require_api_key_cases e f req w :
  require_api_key e f req w = (jsonify (BError "Unauthorized") 401, w) ∨
  (authorized e req ∧ require_api_key e f req w = f req w).
Proof.
  destruct (truthy (getenv e "API_KEY")) eqn:Ht.
  2:{ left. apply require_api_key_rejects. by left. }
  destruct (decide (x_api_key req = getenv e "API_KEY")) as [Heq|Hne].
  2:{ left. apply require_api_key_rejects. by right. }
  right. apply truthy_true in Ht as (key & He & Hkey).
  assert (authorized e req) as Ha.
  { exists key. split_and!; [done|done|congruence]. }
  split; [done|]. by apply require_api_key_accepts.
Qed.

Lemma protected_rejects e ep req w :
  ep ≠ Health →
  truthy (getenv e "API_KEY") = false ∨ x_api_key req ≠ getenv e "API_KEY" →
  serve e ep req w = (jsonify (BError "Unauthorized") 401, w).
Proof.
  intros Hep Hbad. destruct ep; [done|..]; by apply require_api_key_rejects.
Qed.

(** C8. A request to a protected endpoint whose [X-API-Key] header is absent
    or differs from the configured key is answered 401 [Unauthorized], and
    the world is returned as it was received: nothing was logged, so neither
    the store nor the forum was reached. *)
Theorem protected_endpoints_require_key e ep req w :
  ep ≠ Health →
  x_api_key req = None ∨ x_api_key req ≠ getenv e "API_KEY" →
  serve e ep req w = (jsonify (BError "Unauthorized") 401, w).
Proof.
  intros Hep [Hnone|Hne]; apply protected_rejects; try done; [|by right].
  destruct (getenv e "API_KEY") as [key|] eqn:He; [|by left].
  right. by rewrite Hnone.
Qed.

(** C10. With [API_KEY] unset or empty every protected endpoint answers 401
    to every request, whatever header it carries, and reaches nothing. *)
Theorem unset_api_key_fails_closed e ep req w :
  ep ≠ Health →
  getenv e "API_KEY" = None ∨ getenv e "API_KEY" = Some "" →
  serve e ep req w = (jsonify (BError "Unauthorized") 401, w).
Proof.
  intros Hep Hkey. apply protected_rejects; [done|]. left. by destruct Hkey as [-> | ->].
Qed.

(** ** [update_post] *)

Lemma value_in_valid st :
  value_in st valid_statuses = true ↔ ∃ s : PostStatus, st = VStr (PostStatus_value s).
Proof.
  split.
  - unfold value_in, valid_statuses, PostStatus_members. cbn.
    destruct st as [| | |s'| | |]; cbn; try done.
    rewrite !orb_true_iff, !String.eqb_eq.
    intros [->|[->|[->|[->|[->|?]]]]];
      [by exists NEW|by exists ANALYSIS_PENDING|by exists APPROVED|by exists REJECTED
      |by exists DEPLOYED|done].
  - intros [s ->]. by destruct s.
Qed.

Lemma initialize_firestore_eq e w :
  initialize_firestore e w =
    (match next_fault w with Some _ => None | None => Some FirestoreClient end,
     advance EvFirestoreInit w).
Proof. unfold initialize_firestore, external. by destruct (next_fault w). Qed.




(** The two ways the view body can end: without a change to the collection
    (and then without a write unless the payload was a valid dict), or with
    the merged document written under the id. *)
Lemma update_post_body_inv post_id req w r w' :
  update_post_body post_id req w = (r, w') →
  (docs w' = docs w ∧ (∀ resp, r = Ret resp → code resp = 400) ∧
   (w' = w ∨
    w' = advance (EvUpdate post_id) w ∧ ∃ data, json req = JObject data ∧ status_ok data)) ∨
  (∃ data d, json req = JObject data ∧ status_ok data ∧
     docs w !! post_id = Some d ∧ next_fault w = None ∧
     r = Ret (jsonify (BUpdated post_id) 200) ∧
     w' = with_docs (λ ds, <[post_id := merged (server_time w) data d]> ds)
            (advance (EvUpdate post_id) w)).
Proof.
  unfold update_post_body, get_json.
  destruct (json req) as [data|msg] eqn:Hj; unfold mbind at 1, mret, raise.
  2:{ intros [= <- <-]. left. split_and!; [done|done|by left]. }
  assert (Hupd : status_ok data →
    mbind (doc_update post_id (<["updated_at" := SERVER_TIMESTAMP]> data))
      (λ _ w0, (Ret (jsonify (BUpdated post_id) 200), w0)) w = (r, w') →
    (docs w' = docs w ∧ (∀ resp, r = Ret resp → code resp = 400) ∧
     (w' = w ∨
      w' = advance (EvUpdate post_id) w ∧ ∃ data0, JObject data = JObject data0 ∧ status_ok data0)) ∨
    (∃ data0 d, JObject data = JObject data0 ∧ status_ok data0 ∧
       docs w !! post_id = Some d ∧ next_fault w = None ∧
       r = Ret (jsonify (BUpdated post_id) 200) ∧
       w' = with_docs (λ ds, <[post_id := merged (server_time w) data0 d]> ds)
              (advance (EvUpdate post_id) w))).
  { intros Hok. unfold mbind. rewrite doc_update_eq.
    destruct (next_fault w) eqn:Hf.
    { intros [= <- <-]. left. split_and!; [done|done|right; eauto]. }
    destruct (docs w !! post_id) as [d|] eqn:Hd.
    - intros [= <- <-]. right. by exists data, d.
    - intros [= <- <-]. left. split_and!; [done|done|right; eauto]. }
  destruct (data !! "status") as [st|] eqn:Hst.
  - destruct (value_in st valid_statuses) eqn:Hv; cbn.
    + apply Hupd. intros st' Hst'. rewrite Hst in Hst'. injection Hst' as <-.
      by apply value_in_valid.
    + intros [= <- <-]. left. split_and!; [done| |by left]. by intros ? [= <-].
  - apply Hupd. intros st' Hst'. by rewrite Hst in Hst'.
Qed.

Lemma update_post_inv e post_id req w resp w' :
  update_post e post_id req w = (resp, w') →
  (code resp ≠ 200 ∧ docs w' = docs w ∧
   ∃ evs, log w' = evs ++ log w ∧
     ∀ ev, ev ∈ evs →
       ev = EvFirestoreInit ∨
       (ev = EvUpdate post_id ∧ ∃ data, json req = JObject data ∧ status_ok data)) ∨
  (∃ data d, json req = JObject data ∧ status_ok data ∧ authorized e req ∧
     docs w !! post_id = Some d ∧
     resp = jsonify (BUpdated post_id) 200 ∧
     docs w' = <[post_id := merged (server_time w) data d]> (docs w)).
Proof.
  unfold update_post.
  destruct (require_api_key_cases e
    (λ req w, let '(db, w1) := initialize_firestore e w in
       match db with
       | None => (jsonify (BError "Database connection failed") 500, w1)
       | Some _ => guarded (update_post_body post_id req) w1
       end) req w) as [-> | [Hauth ->]].
  { intros [= <- <-]. left. split_and!; [done|done|]. exists []. split; [done|].
    intros ev Hev. by apply elem_of_nil in Hev. }
  rewrite initialize_firestore_eq.
  destruct (next_fault w) eqn:Hf.
  { intros [= <- <-]. left. split_and!; [done|done|]. exists [EvFirestoreInit].
    split; [done|]. intros ev ->%list_elem_of_singleton. by left. }
  unfold guarded.
  destruct (update_post_body post_id req (advance EvFirestoreInit w)) as [r w2] eqn:Hb.
  destruct (update_post_body_inv _ _ _ _ _ Hb)
    as [(Hdocs & Hcode & Hw)|(data & d & Hj & Hok & Hd & _ & -> & ->)].
  - intros Hres. left.
    assert (code resp ≠ 200 ∧ w' = w2) as [Hc ->].
    { destruct r as [resp'|msg]; injection Hres as <- <-; [|done].
      rewrite (Hcode _ eq_refl). done. }
    split_and!; [done|done|].
    destruct Hw as [-> | [-> Hdata]].
    + exists [EvFirestoreInit]. split; [done|].
      intros ev ->%list_elem_of_singleton. by left.
    + exists [EvUpdate post_id; EvFirestoreInit]. split; [done|].
      intros ev [->|[->|[]%elem_of_nil]%elem_of_cons]%elem_of_cons; [by right|by left].
  - intros [= <- <-]. right. by exists data, d.
Qed.


(** C5. A PUT whose dict body has a [status] outside the enum never changes
    the collection and never reaches a store operation: the only external
    call it may log is the construction of the client.  When the request
    passes the key check and the client is built, the answer is 400 with the
    list of valid statuses, returned before [update] is called. *)
Theorem update_post_rejects_invalid_status e post_id req w data st :
  json req = JObject data →
  data !! "status" = Some st →
  (∀ s : PostStatus, st ≠ VStr (PostStatus_value s)) →
  docs (update_post e post_id req w).2 = docs w ∧
  (∃ evs, log (update_post e post_id req w).2 = evs ++ log w ∧
          ∀ ev, ev ∈ evs → ev = EvFirestoreInit) ∧
  (authorized e req → next_fault w = None →
   update_post e post_id req w =
     (jsonify (BError ("Invalid status. Must be one of " +:+
                       "['New', 'AnalysisPending', 'Approved', 'Rejected', 'Deployed']")) 400,
      advance EvFirestoreInit w)).
Proof.
  intros Hj Hst Hbad.
  assert (Hnok : ∀ data', json req = JObject data' → ¬ status_ok data').
  { intros data' Hj' Hok. rewrite Hj in Hj'. injection Hj' as <-.
    destruct (Hok st Hst) as [s ->]. by apply (Hbad s). }
  destruct (update_post e post_id req w) as [resp w'] eqn:Hrun. cbn [snd].
  destruct (update_post_inv _ _ _ _ _ _ Hrun)
    as [(_ & Hdocs & evs & Hlog & Hev)|(data' & d & Hj' & Hok & _)];
    [|by destruct (Hnok _ Hj')].
  split_and!; [done| |].
  - exists evs. split; [done|]. intros ev Hin.
    destruct (Hev ev Hin) as [?|(_ & data' & Hj' & Hok)]; [done|by destruct (Hnok _ Hj')].
  - intros Hauth Hf. rewrite <- Hrun. unfold update_post.
    rewrite (require_api_key_accepts _ _ _ _ Hauth), initialize_firestore_eq, Hf.
    unfold guarded, update_post_body, get_json. rewrite Hj. unfold mbind at 1, mret.
    rewrite Hst.
    destruct (value_in st valid_statuses) eqn:Hv.
    { apply value_in_valid in Hv as [s ->]. by destruct (Hbad s). }
    reflexivity.
Qed.

Lemma update_post_rejects_invalid_status_witness :
  update_post sample_environ "p1" (keyed_request bogus_status) after_first_cycle =
    (jsonify (BError ("Invalid status. Must be one of " +:+
                      "['New', 'AnalysisPending', 'Approved', 'Rejected', 'Deployed']")) 400,
     advance EvFirestoreInit after_first_cycle).
Proof.
  apply (update_post_rejects_invalid_status sample_environ "p1"
           (keyed_request bogus_status) after_first_cycle bogus_status (VStr "Bogus")).
  - reflexivity.
  - reflexivity.
  - intros s. destruct s; discriminate.
  - exists "secret". split_and!; [discriminate|reflexivity|reflexivity].
  - reflexivity.
Defined.



(** ** What the endpoints do to stored records *)



Lemma get_posts_docs e req w : docs (get_posts e req w).2 = docs w.
Proof.
  unfold get_posts, require_api_key.
  destruct (negb _ || _); [done|].
  rewrite initialize_firestore_eq. destruct (next_fault w); [done|].
  unfold guarded, mbind, stream_all, mbind, external.
  by destruct (next_fault (advance EvFirestoreInit w)).
Qed.

Lemma get_post_docs e post_id req w : docs (get_post e post_id req w).2 = docs w.
Proof.
  unfold get_post, require_api_key.
  destruct (negb _ || _); [done|].
  rewrite initialize_firestore_eq. destruct (next_fault w); [done|].
  unfold guarded, mbind. rewrite doc_get_eq.
  destruct (next_fault (advance EvFirestoreInit w)); [done|].
  cbn. by destruct (docs w !! post_id).
Qed.




(** ** Witnesses on the sample data *)


Lemma protected_endpoints_require_key_witness :
  serve sample_environ Posts keyless_request after_first_cycle =
    (jsonify (BError "Unauthorized") 401, after_first_cycle).
Proof.
  apply (protected_endpoints_require_key sample_environ Posts keyless_request
           after_first_cycle).
  - discriminate.
  - left. reflexivity.
Defined.

Lemma unset_api_key_fails_closed_witness :
  serve blank_key_environ RunAgent blank_key_request one_post_world =
    (jsonify (BError "Unauthorized") 401, one_post_world).
Proof.
  apply (unset_api_key_fails_closed blank_key_environ RunAgent blank_key_request
           one_post_world).
  - discriminate.
  - right. reflexivity.
Defined.

Lemma healthy_one_post_world : healthy one_post_world.
Proof.
  split_and!.
  - reflexivity.
  - intros post_id d Hd. cbn in Hd. by rewrite lookup_empty in Hd.
  - intros msg Hin. cbn in Hin. apply list_elem_of_singleton in Hin. discriminate.
Defined.

Lemma run_agent_cycle_result_witness :
  ∃ res w', cycle_body FirestoreClient RedditClient one_post_world = (Ret res, w').
Proof.
  destruct (run_agent_cycle_result the_db the_reddit one_post_world) as [_ Hboth].
  destruct (Hboth FirestoreClient RedditClient eq_refl eq_refl) as (_ & _ & Hgo).
  exact (Hgo healthy_one_post_world).
Defined.

(** The three kinds of exception of the cycle body, each turned into an
    error result: a failed store call, an unreadable submission, and a
    stored document without [status]. *)
Example run_agent_cycle_catches_store_failure :
  (run_agent_cycle the_db the_reddit (with_faults [Some "503 unavailable"] one_post_world)).1
  = CycleError "503 unavailable".
Proof. vm_compute. reflexivity. Qed.

Example run_agent_cycle_catches_forum_failure :
  (run_agent_cycle the_db the_reddit
     (with_listing [Item (self_post "p1"); Broken "received 403 HTTP response"] empty_world)).1
  = CycleError "received 403 HTTP response".
Proof. vm_compute. reflexivity. Qed.

Example run_agent_cycle_catches_key_error :
  (run_agent_cycle the_db the_reddit
     (with_docs (λ _, {["p1" := ∅]}) one_post_world)).1
  = CycleError "'status'".
Proof. vm_compute. reflexivity. Qed.

(** Without forum credentials the trigger endpoint answers 500 with the
    error result of the cycle. *)
Example run_agent_without_credentials :
  (run_agent sample_environ (keyed_request ∅) one_post_world).1 =
    jsonify (BCycle (CycleError "Connection failed")) 500.
Proof. vm_compute. reflexivity. Qed.

(** The scenario of the specification: three fetched submissions, one
    already ingested and since approved, one stickied, one fresh text post. *)
Example run_agent_cycle_scenario :
  let w0 := (update_post sample_environ "p1" (keyed_request approve) after_first_cycle).2 in
  let w := with_listing [Item (self_post "p1"); Item (sticky_post "s1"); Item (self_post "p2")] w0 in
  (run_agent_cycle the_db the_reddit w).1 = CycleSuccess 1 1 2000.
Proof. vm_compute. reflexivity. Qed.

(** ** [get_config] *)

Section get_config_properties.
Context {J : Type} (json_loads : string → option J).
(** [json.loads("")] raises [JSONDecodeError]. *)
Hypothesis json_loads_empty : json_loads "" = None.

(** C9. When the variable is missing, or holds text that does not decode,
    the answer is 500 with an error body; when it holds text that decodes,
    the answer is 200 and its body is the decoded value itself. *)
Theorem get_config_serves_blob (e : environ) :
  (getenv e "FIREBASE_CONFIG_JSON" = None ∨
   (∃ s, getenv e "FIREBASE_CONFIG_JSON" = Some s ∧ json_loads s = None) →
   Config.code (Config.get_config json_loads e) = 500 ∧
   ∃ msg, Config.content (Config.get_config json_loads e) = Config.BError msg) ∧
  (∀ s config,
     getenv e "FIREBASE_CONFIG_JSON" = Some s → json_loads s = Some config →
     Config.get_config json_loads e =
       {| Config.content := Config.BConfig config; Config.code := 200 |}).
Proof.
  unfold Config.get_config. split.
  - intros [-> | (s & -> & Hs)]; cbn; [by eauto|].
    destruct (String.eqb s ""); cbn; [by eauto|]. rewrite Hs. by eauto.
  - intros s config -> Hs. cbn.
    destruct (String.eqb_spec s "") as [-> |_]; [congruence|]. cbn. by rewrite Hs.
Qed.
End get_config_properties.

Lemma get_config_serves_blob_witness :
  Config.get_config literal_loads config_environ =
    {| Config.content := Config.BConfig (VBool true); Config.code := 200 |}.
Proof.
  apply (proj2 (get_config_serves_blob literal_loads eq_refl config_environ) "true").
  - reflexivity.
  - reflexivity.
Defined.

(** * Further properties of the handlers *)

(** ** Reading records *)

Lemma get_post_runs e post_id req w :
  authorized e req → faults w = [] →
  get_post e post_id req w =
    (match docs w !! post_id with
     | None => jsonify (BError "Post not found") 404
     | Some d => jsonify (BPost (<["id" := VStr post_id]> d)) 200
     end, advance (EvGet post_id) (advance EvFirestoreInit w)).
Proof.
  intros Hauth Hf. unfold get_post.
  rewrite (require_api_key_accepts _ _ _ _ Hauth), initialize_firestore_eq.
  unfold next_fault at 1. rewrite Hf.
  unfold guarded, mbind. rewrite doc_get_eq. unfold next_fault. cbn. rewrite Hf. cbn.
  by destruct (docs w !! post_id).
Qed.

(** X1. [get_post] never changes the collection and calls nothing but the
    client construction and one lookup of its id.  It answers 200 only with
    the stored record, completed by its id, and 404 only when no record is
    stored; these are the two answers of an authorised request when no
    external call fails. *)
Theorem get_post_found_or_404 e post_id req w resp w' :
  get_post e post_id req w = (resp, w') →
  docs w' = docs w ∧
  (∃ evs, log w' = evs ++ log w ∧
          ∀ ev, ev ∈ evs → ev = EvFirestoreInit ∨ ev = EvGet post_id) ∧
  (code resp = 200 →
     ∃ d, docs w !! post_id = Some d ∧ content resp = BPost (<["id" := VStr post_id]> d)) ∧
  (code resp = 404 →
     docs w !! post_id = None ∧ content resp = BError "Post not found") ∧
  (authorized e req → faults w = [] →
     code resp = match docs w !! post_id with Some _ => 200 | None => 404 end).
Proof.
  intros Hrun. split_and!.
  - pose proof (get_post_docs e post_id req w) as Hd. by rewrite Hrun in Hd.
  - revert Hrun. unfold get_post, require_api_key.
    destruct (negb _ || _).
    { intros [= <- <-]. exists []. split; [done|]. intros ev Hev. by apply elem_of_nil in Hev. }
    rewrite initialize_firestore_eq. destruct (next_fault w).
    { intros [= <- <-]. exists [EvFirestoreInit]. split; [done|].
      intros ev ->%list_elem_of_singleton. by left. }
    unfold guarded, mbind. rewrite doc_get_eq.
    assert (∀ ev, ev ∈ [EvGet post_id; EvFirestoreInit] →
                  ev = EvFirestoreInit ∨ ev = EvGet post_id) as Hevs.
    { intros ev [->|[->|[]%elem_of_nil]%elem_of_cons]%elem_of_cons; [by right|by left]. }
    destruct (next_fault (advance EvFirestoreInit w)).
    { intros [= <- <-]. by exists [EvGet post_id; EvFirestoreInit]. }
    cbn. destruct (docs w !! post_id); intros [= <- <-];
      by exists [EvGet post_id; EvFirestoreInit].
  - revert Hrun. unfold get_post, require_api_key.
    destruct (negb _ || _); [by intros [= <- <-]|].
    rewrite initialize_firestore_eq. destruct (next_fault w); [by intros [= <- <-]|].
    unfold guarded, mbind. rewrite doc_get_eq.
    destruct (next_fault (advance EvFirestoreInit w)); [by intros [= <- <-]|].
    cbn. destruct (docs w !! post_id) as [d|]; intros [= <- <-]; [|done].
    intros _. by exists d.
  - revert Hrun. unfold get_post, require_api_key.
    destruct (negb _ || _); [by intros [= <- <-]|].
    rewrite initialize_firestore_eq. destruct (next_fault w); [by intros [= <- <-]|].
    unfold guarded, mbind. rewrite doc_get_eq.
    destruct (next_fault (advance EvFirestoreInit w)); [by intros [= <- <-]|].
    cbn. by destruct (docs w !! post_id) as [d|]; intros [= <- <-].
  - intros Hauth Hf. rewrite (get_post_runs _ _ _ _ Hauth Hf) in Hrun.
    injection Hrun as <- _. by destruct (docs w !! post_id).
Qed.

Lemma get_post_found_or_404_witness :
  code (get_post sample_environ "nope" (keyed_request ∅) after_first_cycle).1 = 404.
Proof.
  refine (proj2 (proj2 (proj2 (proj2 (get_post_found_or_404 sample_environ "nope"
            (keyed_request ∅) after_first_cycle
            (get_post sample_environ "nope" (keyed_request ∅) after_first_cycle).1
            (get_post sample_environ "nope" (keyed_request ∅) after_first_cycle).2 _)))) _ _).
  - vm_compute. reflexivity.
  - exists "secret". split_and!; [discriminate|reflexivity|reflexivity].
  - vm_compute. reflexivity.
Defined.

Lemma get_posts_runs e req w :
  authorized e req → faults w = [] →
  get_posts e req w =
    (jsonify (BPosts (with_id <$> map_to_list (docs w))
                (length (with_id <$> map_to_list (docs w)))) 200,
     advance EvStream (advance EvFirestoreInit w)).
Proof.
  intros Hauth Hf. unfold get_posts.
  rewrite (require_api_key_accepts _ _ _ _ Hauth), initialize_firestore_eq.
  unfold next_fault at 1. rewrite Hf.
  unfold guarded, mbind, stream_all, mbind, external, next_fault. cbn. by rewrite Hf.
Qed.

(** X2. A successful listing holds one entry per stored record and its
    count is the size of the collection.  An entry is a stored record with
    its [id] field set to the document id — which replaces a field of that
    name the record may have had — and every stored record is listed.  The
    listing changes nothing, and it is the answer to an authorised request
    when no external call fails. *)
Theorem get_posts_lists_collection e req w resp w' :
  get_posts e req w = (resp, w') →
  docs w' = docs w ∧
  (code resp = 200 →
     ∃ posts, content resp = BPosts posts (size (docs w)) ∧
       length posts = size (docs w) ∧
       (∀ p, p ∈ posts ↔
             ∃ post_id d, docs w !! post_id = Some d ∧ p = <["id" := VStr post_id]> d) ∧
       (∀ p, p ∈ posts → ∃ post_id, p !! "id" = Some (VStr post_id) ∧
                                     is_Some (docs w !! post_id))) ∧
  (authorized e req → faults w = [] → code resp = 200).
Proof.
  intros Hrun. split_and!.
  - pose proof (get_posts_docs e req w) as Hd. by rewrite Hrun in Hd.
  - revert Hrun. unfold get_posts, require_api_key.
    destruct (negb _ || _); [by intros [= <- <-]|].
    rewrite initialize_firestore_eq. destruct (next_fault w); [by intros [= <- <-]|].
    unfold guarded, mbind, stream_all, mbind, external.
    destruct (next_fault (advance EvFirestoreInit w)); [by intros [= <- <-]|].
    cbn. intros [= <- <-] _. cbn.
    assert (Hmem : ∀ p, p ∈ with_id <$> map_to_list (docs w) ↔
              ∃ post_id d, docs w !! post_id = Some d ∧ p = <["id" := VStr post_id]> d).
    { intros p. rewrite list_elem_of_fmap. split.
      - intros ([post_id d] & -> & Hin%elem_of_map_to_list). by exists post_id, d.
      - intros (post_id & d & Hd & ->). exists (post_id, d). split; [done|].
        by apply elem_of_map_to_list. }
    exists (with_id <$> map_to_list (docs w)).
    rewrite length_fmap, length_map_to_list. split_and!; try done.
    intros p (post_id & d & Hd & ->)%Hmem. exists post_id.
    rewrite lookup_insert_eq. eauto.
  - intros Hauth Hf. rewrite (get_posts_runs _ _ _ Hauth Hf) in Hrun.
    by injection Hrun as <- _.
Qed.

Lemma get_posts_lists_collection_witness :
  code (get_posts sample_environ (keyed_request ∅) after_first_cycle).1 = 200.
Proof.
  refine (proj2 (proj2 (get_posts_lists_collection sample_environ
            (keyed_request ∅) after_first_cycle
            (get_posts sample_environ (keyed_request ∅) after_first_cycle).1
            (get_posts sample_environ (keyed_request ∅) after_first_cycle).2 _)) _ _).
  - vm_compute. reflexivity.
  - exists "secret". split_and!; [discriminate|reflexivity|reflexivity].
  - vm_compute. reflexivity.
Defined.

(** ** More on the ingestion loop *)

(** A call that returns has either found the stored document, or written
    and returned the fresh record. *)
Lemma fetch_returns_inv db post_id data w d w1 :
  fetch_or_initialize_post db post_id data w = (Ret d, w1) →
  (docs w !! post_id = Some d ∧ docs w1 = docs w) ∨
  (docs w !! post_id = None ∧ new_post_data data w = (Ret d, w) ∧
   docs w1 = <[post_id := resolve (server_time w) <$> d]> (docs w)).
Proof.
  intros Hrun. destruct (docs w !! post_id) as [existing|] eqn:Hd.
  - rewrite (fetch_existing _ _ _ _ _ Hd) in Hrun.
    destruct (next_fault w); [done|]. injection Hrun as <- <-. by left.
  - destruct (fetch_absent_inv _ _ _ _ _ _ Hd Hrun)
      as [(msg & ? & _)|(npd & [= <-] & Hn & _ & _ & ->)]; [done|].
    right. by split_and!.
Qed.

Lemma new_post_data_of s w npd w1 :
  new_post_data (post_data_of s) w = (Ret npd, w1) →
  ∀ t, resolve t <$> npd = initial_record t s.
Proof.
  intros Hn t. destruct (new_post_data_inv _ _ _ _ Hn) as [_ Hnpd].
  destruct (Hnpd npd eq_refl) as (tt & b & u & a & c & Ht & Hb & Hu & Ha & Hc & ->).
  destruct (post_data_of_keys s) as (Ht' & Hb' & Hu' & Ha' & Hc').
  rewrite Ht' in Ht. rewrite Hb' in Hb. rewrite Hu' in Hu. rewrite Ha' in Ha.
  rewrite Hc' in Hc. simplify_eq.
  unfold initial_record. by rewrite !fmap_insert, fmap_empty.
Qed.

Lemma initial_record_status t s : has_status "New" (initial_record t s) = true.
Proof. unfold has_status, initial_record. by simplify_map_eq. Qed.

(** One step of the loop on an unskipped submission: what the returned
    document tells the counter, and that the step does not change what the
    counter will be told about any submission. *)
Lemma fetch_counted db s w d w1 :
  fetch_or_initialize_post db (sub_id s) (post_data_of s) w = (Ret d, w1) →
  has_status "New" d =
    match docs w !! sub_id s with
    | Some d0 => has_status "New" d0
    | None => true
    end ∧
  (∀ s', counted (docs w1) s' = counted (docs w) s').
Proof.
  intros Hrun.
  destruct (fetch_returns_inv _ _ _ _ _ _ Hrun) as [[Hd ->]|(Hd & Hn & ->)].
  - by rewrite Hd.
  - rewrite Hd.
    pose proof (new_post_data_of _ _ _ _ Hn (server_time w)) as Hrec.
    split.
    + destruct (new_post_data_inv _ _ _ _ Hn) as [_ Hnpd].
      destruct (Hnpd d eq_refl) as (? & ? & ? & ? & ? & _ & _ & _ & _ & _ & ->).
      unfold has_status. by simplify_map_eq.
    + intros s'. unfold counted. destruct (decide (sub_id s' = sub_id s)) as [Heq|Hne].
      * rewrite Heq, lookup_insert_eq, Hd, Hrec. cbn. by rewrite initial_record_status.
      * by rewrite lookup_insert_ne.
Qed.

Lemma count_new_ext ds ds' items :
  (∀ s, counted ds' s = counted ds s) → count_new ds' items = count_new ds items.
Proof.
  intros Hext. unfold count_new. induction items as [|[s|msg] rest IH]; cbn; [done| |done].
  rewrite Hext. destruct (counted ds s); cbn; by rewrite IH.
Qed.

Lemma ingest_loop_counts db items n w n' w' :
  ingest_loop db items n w = (Ret n', w') →
  n' = (n + count_new (docs w) items)%nat.
Proof.
  revert n w. induction items as [|[s|msg] rest IH]; intros n w.
  - cbn. intros [= <- <-]. unfold count_new. cbn. lia.
  - cbn [ingest_loop].
    assert (Hskip : skipped s = true →
      ingest_loop db rest n w = (Ret n', w') →
      n' = (n + count_new (docs w) (Item s :: rest))%nat).
    { intros Hs Hm. apply IH in Hm. unfold count_new in *. cbn.
      unfold counted at 1. by rewrite Hs. }
    destruct (stickied s || truthy (removed_by_category s)) eqn:H1.
    { apply Hskip. unfold skipped. by rewrite H1. }
    destruct (is_self s) eqn:H2; cbn [negb].
    2:{ apply Hskip. unfold skipped. by rewrite H1, H2. }
    assert (Hpass : skipped s = false) by (unfold skipped; by rewrite H1, H2).
    intros Hrun.
    apply mbind_inv in Hrun as [(post_doc & w1 & Hf & Hrun)|(msg & _ & ?)]; [|done].
    apply mbind_inv in Hrun as [(st & w2 & Hg & Hrun)|(msg & _ & ?)]; [|done].
    destruct (getitem_inv _ _ _ _ _ Hg) as [-> Hst]. specialize (Hst st eq_refl).
    destruct (fetch_counted _ _ _ _ _ Hf) as [Hnew Hext].
    assert (Hb : value_eq_str st "New" = counted (docs w) s).
    { unfold counted. rewrite Hpass. cbn. rewrite <- Hnew. unfold has_status. by rewrite Hst. }
    assert (Hc : count_new (docs w) (Item s :: rest)
                 = ((if counted (docs w) s then 1 else 0) + count_new (docs w) rest)%nat).
    { unfold count_new. cbn. by destruct (counted (docs w) s). }
    rewrite Hc, <- (count_new_ext _ _ rest Hext), <- Hb.
    revert Hrun. cbn. destruct (value_eq_str st "New"); intros Hm; apply IH in Hm; lia.
  - done.
Qed.

(** X3. The counter of a successful cycle is the number of fetched
    submissions that pass the filters and whose record has status [New],
    whether that record was stored before the cycle or is created by it. *)
Theorem new_posts_found_counts_new_status db reddit w n a t w' :
  run_agent_cycle db reddit w = (CycleSuccess n a t, w') →
  n = count_new (docs w) (take 25 (listing w)).
Proof.
  unfold run_agent_cycle. destruct db as [db|], reddit as [reddit|]; try done.
  destruct (cycle_body db reddit w) as [[res|msg] w1] eqn:Hb; [|done].
  intros [= -> ->]. unfold cycle_body in Hb.
  apply mbind_inv in Hb as [(approved & w1 & Hq & Hb)|(msg & _ & ?)]; [|done].
  rewrite where_status_limit_eq in Hq. injection Hq as Hq <-.
  apply mbind_inv in Hb as [(items & w2 & Hn & Hb)|(msg & _ & ?)]; [|done].
  rewrite subreddit_new_eq in Hn. injection Hn as Hn <-.
  apply mbind_inv in Hb as [(n0 & w3 & Hl & Hb)|(msg & _ & ?)]; [|done].
  injection Hb as <- _ _ _.
  destruct (next_fault (advance EvQuery w)); [done|]. injection Hn as <-.
  by apply ingest_loop_counts in Hl.
Qed.

Lemma new_posts_found_counts_new_status_witness :
  1%nat = count_new (docs after_first_cycle) (take 25 (listing after_first_cycle)).
Proof.
  apply (new_posts_found_counts_new_status the_db the_reddit after_first_cycle 1 0 2000
           (run_agent_cycle the_db the_reddit after_first_cycle).2).
  vm_compute. reflexivity.
Defined.

(** A successful cycle ran the loop over the batch to its end. *)
Lemma cycle_success_inv db reddit w n a t w' :
  run_agent_cycle db reddit w = (CycleSuccess n a t, w') →
  ∃ d, db = Some d ∧
    ingest_loop d (take 25 (listing w)) 0 (advance EvSubredditNew (advance EvQuery w))
      = (Ret n, w').
Proof.
  unfold run_agent_cycle. destruct db as [db|], reddit as [reddit|]; try done.
  destruct (cycle_body db reddit w) as [[res|msg] w1] eqn:Hb; [|done].
  intros [= -> ->]. unfold cycle_body in Hb.
  apply mbind_inv in Hb as [(approved & w1 & Hq & Hb)|(msg & _ & ?)]; [|done].
  rewrite where_status_limit_eq in Hq. injection Hq as Hq <-.
  apply mbind_inv in Hb as [(items & w2 & Hn & Hb)|(msg & _ & ?)]; [|done].
  rewrite subreddit_new_eq in Hn. injection Hn as Hn <-.
  apply mbind_inv in Hb as [(n0 & w3 & Hl & Hb)|(msg & _ & ?)]; [|done].
  injection Hb as <- _ _ <-.
  destruct (next_fault (advance EvQuery w)); [done|]. injection Hn as <-.
  by exists db.
Qed.

Lemma ingest_loop_stores db items n w n' w' :
  ingest_loop db items n w = (Ret n', w') →
  ∀ s, Item s ∈ items → skipped s = false → is_Some (docs w' !! sub_id s).
Proof.
  revert n w. induction items as [|[s0|msg] rest IH]; intros n w; cbn [ingest_loop].
  - intros _ s Hin. by apply elem_of_nil in Hin.
  - assert (Hskip : skipped s0 = true →
      ingest_loop db rest n w = (Ret n', w') →
      ∀ s, Item s ∈ Item s0 :: rest → skipped s = false → is_Some (docs w' !! sub_id s)).
    { intros Hs0 Hm s [[= ->]|Hin]%elem_of_cons Hs; [congruence|]. by eapply IH. }
    destruct (stickied s0 || truthy (removed_by_category s0)) eqn:H1.
    { apply Hskip. unfold skipped. by rewrite H1. }
    destruct (is_self s0) eqn:H2; cbn [negb].
    2:{ apply Hskip. unfold skipped. by rewrite H1, H2. }
    intros Hrun.
    apply mbind_inv in Hrun as [(post_doc & w1 & Hf & Hrun)|(msg & _ & ?)]; [|done].
    apply mbind_inv in Hrun as [(st & w2 & Hg & Hrun)|(msg & _ & ?)]; [|done].
    destruct (getitem_inv _ _ _ _ _ Hg) as [-> _].
    assert (∃ m, ingest_loop db rest m w1 = (Ret n', w')) as [m Hm].
    { revert Hrun. destruct (value_eq_str st _); eauto. }
    intros s [[= ->]|Hin]%elem_of_cons Hs; [|by eapply IH].
    destruct (ingest_loop_effect _ _ _ _ _ _ Hm) as (_ & _ & _ & Hk & _).
    assert (is_Some (docs w1 !! sub_id s0)) as [d Hd].
    { destruct (fetch_returns_inv _ _ _ _ _ _ Hf) as [[Hd ->]|(_ & _ & ->)].
      - by rewrite Hd.
      - rewrite lookup_insert_eq. by eexists. }
    rewrite (Hk _ _ Hd). by eexists.
  - done.
Qed.

(** X4. After a successful cycle every fetched submission that passes the
    filters has a record in the collection. *)
Theorem successful_cycle_stores_batch db reddit w n a t w' :
  run_agent_cycle db reddit w = (CycleSuccess n a t, w') →
  ∀ s, Item s ∈ take 25 (listing w) → skipped s = false →
       is_Some (docs w' !! sub_id s).
Proof.
  intros Hrun. destruct (cycle_success_inv _ _ _ _ _ _ _ Hrun) as (d & _ & Hl).
  by apply (ingest_loop_stores _ _ _ _ _ _ Hl).
Qed.

Lemma successful_cycle_stores_batch_witness :
  is_Some (docs (run_agent_cycle the_db the_reddit mixed_world).2 !! "p1").
Proof.
  apply (successful_cycle_stores_batch the_db the_reddit mixed_world 1 0 2000
           (run_agent_cycle the_db the_reddit mixed_world).2 ltac:(vm_compute; reflexivity)
           (self_post "p1")).
  - vm_compute. set_solver.
  - reflexivity.
Defined.

(** A cycle over a batch whose unskipped submissions are all stored leaves
    the collection as it was. *)
Lemma cycle_unchanged_when_stored db reddit w r w' :
  (∀ s, Item s ∈ take 25 (listing w) → skipped s = false → is_Some (docs w !! sub_id s)) →
  run_agent_cycle db reddit w = (r, w') →
  docs w' = docs w.
Proof.
  intros Hstored Hrun.
  destruct (run_agent_cycle_effect _ _ _ _ _ Hrun) as (evs & _ & Hev & Hk & Hc & _).
  apply map_eq. intros post_id.
  destruct (docs w !! post_id) as [d|] eqn:Hd; [by apply Hk|].
  destruct (docs w' !! post_id) as [d'|] eqn:Hd'; [|done].
  exfalso.
  assert (EvSet post_id ∈ evs) as Hin by (apply Hc; [done|]; rewrite Hd'; by eexists).
  destruct (Hev _ Hin) as [?|[?|(s & Hs & Hpass & [?|[= ->]])]]; try done.
  destruct (Hstored s Hs Hpass) as [? ?]. congruence.
Qed.

(** X5. Ingestion is idempotent on the store: a cycle that follows a
    successful cycle, the forum listing being the same, leaves the
    collection exactly as the first one left it, whatever its own result. *)
Theorem second_cycle_changes_nothing db reddit db2 reddit2 w n a t w1 r2 w2 :
  run_agent_cycle db reddit w = (CycleSuccess n a t, w1) →
  run_agent_cycle db2 reddit2 w1 = (r2, w2) →
  docs w2 = docs w1.
Proof.
  intros Hrun1 Hrun2.
  destruct (run_agent_cycle_effect _ _ _ _ _ Hrun1) as (_ & _ & _ & _ & _ & Hl & _).
  destruct (cycle_success_inv _ _ _ _ _ _ _ Hrun1) as (d & _ & Hloop).
  apply (cycle_unchanged_when_stored db2 reddit2 w1 r2 w2); [|done].
  rewrite Hl. by apply (ingest_loop_stores _ _ _ _ _ _ Hloop).
Qed.

Lemma second_cycle_changes_nothing_witness :
  docs (run_agent_cycle the_db the_reddit after_first_cycle).2 = docs after_first_cycle.
Proof.
  apply (second_cycle_changes_nothing the_db the_reddit the_db the_reddit one_post_world
           1 0 2000 after_first_cycle
           (run_agent_cycle the_db the_reddit after_first_cycle).1).
  - vm_compute. reflexivity.
  - vm_compute. reflexivity.
Defined.

Lemma fetch_raises_docs db post_id data w msg w1 :
  fetch_or_initialize_post db post_id data w = (Raise msg, w1) → docs w1 = docs w.
Proof.
  intros Hrun. destruct (docs w !! post_id) as [existing|] eqn:Hd.
  - rewrite (fetch_existing _ _ _ _ _ Hd) in Hrun. by injection Hrun as _ <-.
  - by destruct (fetch_absent_inv _ _ _ _ _ _ Hd Hrun) as [(? & _ & ?)|(? & ? & _)].
Qed.

Lemma ingest_loop_creates db items n w r w' :
  ingest_loop db items n w = (r, w') →
  ∀ post_id d, docs w !! post_id = None → docs w' !! post_id = Some d →
    ∃ s, Item s ∈ items ∧ skipped s = false ∧ sub_id s = post_id ∧
         d = initial_record (server_time w) s.
Proof.
  revert n w. induction items as [|[s0|msg] rest IH]; intros n w; cbn [ingest_loop].
  - intros [= <- <-] post_id d Hn Hs. congruence.
  - assert (Hskip : ∀ m, ingest_loop db rest m w = (r, w') →
      ∀ post_id d, docs w !! post_id = None → docs w' !! post_id = Some d →
        ∃ s, Item s ∈ Item s0 :: rest ∧ skipped s = false ∧ sub_id s = post_id ∧
             d = initial_record (server_time w) s).
    { intros m Hm post_id d Hn Hs. destruct (IH _ _ Hm _ _ Hn Hs) as (s & ? & ?).
      exists s. split; [by right|done]. }
    destruct (stickied s0 || truthy (removed_by_category s0)) eqn:H1; [by apply Hskip|].
    destruct (is_self s0) eqn:H2; cbn [negb]; [|by apply Hskip].
    assert (Hpass : skipped s0 = false) by (unfold skipped; by rewrite H1, H2).
    intros Hrun post_id d Hn Hs.
    apply mbind_inv in Hrun as [(post_doc & w1 & Hf & Hrun)|(msg & Hf & _)].
    2:{ apply fetch_raises_docs in Hf. congruence. }
    destruct (fetch_effect _ _ _ _ _ _ Hf) as (_ & _ & _ & _ & _ & _ & Ht & _).
    (* what the rest of the loop does from [w1] *)
    assert (keeps_docs w1 w' ∧
            (docs w1 !! post_id = None →
             ∃ s, Item s ∈ rest ∧ skipped s = false ∧ sub_id s = post_id ∧
                  d = initial_record (server_time w1) s)) as [Hk Hrest].
    { apply mbind_inv in Hrun as [(st & w2 & Hg & Hrun)|(msg & Hg & _)];
        destruct (getitem_inv _ _ _ _ _ Hg) as [-> _].
      2:{ split; [apply keeps_docs_refl|]. congruence. }
      assert (∃ m, ingest_loop db rest m w1 = (r, w')) as [m Hm].
      { revert Hrun. destruct (value_eq_str st _); eauto. }
      destruct (ingest_loop_effect _ _ _ _ _ _ Hm) as (_ & _ & _ & Hk & _).
      split; [done|]. intros Hn1. by apply (IH _ _ Hm). }
    destruct (docs w1 !! post_id) as [d1|] eqn:Hd1.
    + rewrite (Hk _ _ Hd1) in Hs. injection Hs as <-.
      destruct (fetch_returns_inv _ _ _ _ _ _ Hf) as [[_ Hsame]|(_ & Hnew & Hins)].
      { rewrite Hsame in Hd1. congruence. }
      rewrite Hins in Hd1. destruct (decide (sub_id s0 = post_id)) as [Heq|Hne].
      * rewrite Heq, lookup_insert_eq in Hd1. injection Hd1 as <-.
        exists s0. split_and!; [by left|done|done|].
        apply (new_post_data_of _ _ _ _ Hnew).
      * rewrite lookup_insert_ne in Hd1; [congruence|done].
    + destruct (Hrest eq_refl) as (s & Hin & Hsk & Hid & ->).
      exists s. split_and!; [by right|done|done|by rewrite Ht].
  - intros [= <- <-] post_id d Hn Hs. congruence.
Qed.

(** X6. A cycle only adds to the collection, whatever its result: every
    stored record is kept as it was, and a record that appears is the initial
    record of a fetched submission with that id that passes the filters —
    its title, text, url and creation time, its author as a string (the
    text [None] when there is none), status [New], no analysis result, no
    deployment id, and the server's time as [ingested_at]. *)
Theorem cycle_adds_initial_records db reddit w r w' :
  run_agent_cycle db reddit w = (r, w') →
  keeps_docs w w' ∧
  ∀ post_id d, docs w !! post_id = None → docs w' !! post_id = Some d →
    ∃ s, Item s ∈ take 25 (listing w) ∧ skipped s = false ∧ sub_id s = post_id ∧
         d = initial_record (server_time w) s.
Proof.
  intros Hrun.
  destruct (run_agent_cycle_effect _ _ _ _ _ Hrun) as (_ & _ & _ & Hk & _).
  split; [done|]. revert Hrun. unfold run_agent_cycle.
  destruct db as [db|], reddit as [reddit|];
    try (intros [= <- <-] post_id d ? ?; congruence).
  intros Hrun post_id d Hn Hs.
  assert (∃ rb, cycle_body db reddit w = (rb, w')) as [rb Hb].
  { destruct (cycle_body db reddit w) as [[res|msg] w1]; injection Hrun as <- <-; eauto. }
  clear Hrun. unfold cycle_body in Hb.
  apply mbind_inv in Hb as [(approved & w1 & Hq & Hb)|(msg & Hq & _)];
    rewrite where_status_limit_eq in Hq; injection Hq as Hq <-; [|cbn in Hs; congruence].
  apply mbind_inv in Hb as [(items & w2 & Hnew & Hb)|(msg & Hnew & _)];
    rewrite subreddit_new_eq in Hnew; injection Hnew as Hnew <-; [|cbn in Hs; congruence].
  destruct (next_fault (advance EvQuery w)); [done|]. injection Hnew as <-.
  assert (∃ rl, ingest_loop db (take 25 (listing w)) 0
                  (advance EvSubredditNew (advance EvQuery w)) = (rl, w')) as [rl Hl].
  { apply mbind_inv in Hb as [(n & w3 & Hl & Hb)|(msg & Hl & _)]; [|eauto].
    injection Hb as _ <-. eauto. }
  by apply (ingest_loop_creates _ _ _ _ _ _ Hl).
Qed.

Lemma cycle_adds_initial_records_witness :
  keeps_docs one_post_world after_first_cycle ∧
  ∀ post_id d, docs one_post_world !! post_id = None →
    docs after_first_cycle !! post_id = Some d →
    ∃ s, Item s ∈ take 25 (listing one_post_world) ∧ skipped s = false ∧
         sub_id s = post_id ∧ d = initial_record (server_time one_post_world) s.
Proof.
  apply (cycle_adds_initial_records the_db the_reddit one_post_world
           (run_agent_cycle the_db the_reddit one_post_world).1 after_first_cycle).
  vm_compute. reflexivity.
Defined.

(** X7. The loop over a batch in two parts is the loop over the first part
    followed, from the counter and the world it leaves, by the loop over the
    second.  In particular an unreadable element ends the loop where it
    stands: what follows it in the batch is never processed. *)
Theorem ingest_loop_app db items1 items2 n w :
  ingest_loop db (items1 ++ items2) n w =
    mbind (ingest_loop db items1 n) (λ n1, ingest_loop db items2 n1) w ∧
  ∀ msg,
    ingest_loop db (items1 ++ Broken msg :: items2) n w =
      match ingest_loop db items1 n w with
      | (Ret _, w1) => (Raise msg, w1)
      | (Raise msg1, w1) => (Raise msg1, w1)
      end.
Proof.
  assert (Happ : ∀ items2 n w,
    ingest_loop db (items1 ++ items2) n w =
      mbind (ingest_loop db items1 n) (λ n1, ingest_loop db items2 n1) w).
  { clear. induction items1 as [|[s|msg] rest IH]; intros items2 n w; cbn [app ingest_loop].
    - done.
    - destruct (stickied s || truthy (removed_by_category s)); [apply IH|].
      destruct (negb (is_self s)); [apply IH|].
      unfold mbind in *.
      destruct (fetch_or_initialize_post db (sub_id s) (post_data_of s) w)
        as [[post_doc|msg] w1]; [|done].
      destruct (getitem post_doc "status" w1) as [[st|msg] w2]; [|done].
      destruct (value_eq_str st _); apply IH.
    - done. }
  split; [apply Happ|].
  intros msg. rewrite Happ. unfold mbind.
  by destruct (ingest_loop db items1 n w) as [[n1|msg1] w1].
Qed.

(** ** Missing keys *)

Lemma new_post_data_raises data w msg w' :
  new_post_data data w = (Raise msg, w') →
  ∃ k, k ∈ ["title"; "body"; "url"; "author"; "created_utc"] ∧
       data !! k = None ∧ msg = "'" +:+ k +:+ "'".
Proof.
  unfold new_post_data, mbind, getitem, mret, raise.
  destruct (data !! "title") eqn:Ht.
  2:{ intros [= <- _]. exists "title". split; [set_solver|done]. }
  destruct (data !! "body") eqn:Hb.
  2:{ intros [= <- _]. exists "body". split; [set_solver|done]. }
  destruct (data !! "url") eqn:Hu.
  2:{ intros [= <- _]. exists "url". split; [set_solver|done]. }
  destruct (data !! "author") eqn:Ha.
  2:{ intros [= <- _]. exists "author". split; [set_solver|done]. }
  destruct (data !! "created_utc") eqn:Hc.
  2:{ intros [= <- _]. exists "created_utc". split; [set_solver|done]. }
  done.
Qed.

(** X8. When the id is not stored and [data] lacks one of the five keys,
    the call raises after the lookup and before any write: the collection is
    unchanged and the lookup is the only call logged.  Unless the lookup
    itself fails, the exception is the [KeyError] of a missing key. *)
Theorem fetch_or_initialize_post_missing_key db post_id data w k :
  k ∈ ["title"; "body"; "url"; "author"; "created_utc"] →
  data !! k = None →
  docs w !! post_id = None →
  ∃ msg w',
    fetch_or_initialize_post db post_id data w = (Raise msg, w') ∧
    docs w' = docs w ∧ log w' = EvGet post_id :: log w ∧
    (next_fault w = None →
     ∃ k', k' ∈ ["title"; "body"; "url"; "author"; "created_utc"] ∧
           data !! k' = None ∧ msg = "'" +:+ k' +:+ "'").
Proof.
  intros Hk Hmiss Hd.
  unfold fetch_or_initialize_post, mbind at 1. rewrite doc_get_eq, Hd.
  destruct (next_fault w) as [msg|] eqn:Hf.
  { exists msg, (advance (EvGet post_id) w). by split_and!. }
  unfold mbind at 1.
  destruct (new_post_data data (advance (EvGet post_id) w)) as [[npd|msg] w1] eqn:Hn.
  - destruct (new_post_data_inv _ _ _ _ Hn) as [_ Hnpd].
    destruct (Hnpd npd eq_refl) as (? & ? & ? & ? & ? & Ht & Hb & Hu & Ha & Hc & _).
    repeat (apply elem_of_cons in Hk as [->|Hk]; [congruence|]).
    by apply elem_of_nil in Hk.
  - destruct (new_post_data_inv _ _ _ _ Hn) as [-> _].
    exists msg, (advance (EvGet post_id) w). split_and!; try done.
    intros _. by apply (new_post_data_raises _ _ _ _ Hn).
Qed.

Lemma fetch_or_initialize_post_missing_key_witness :
  ∃ msg w',
    fetch_or_initialize_post FirestoreClient "p9" (delete "url" (post_data_of (self_post "p9")))
      one_post_world = (Raise msg, w') ∧
    docs w' = docs one_post_world ∧ log w' = EvGet "p9" :: log one_post_world ∧
    (next_fault one_post_world = None →
     ∃ k', k' ∈ ["title"; "body"; "url"; "author"; "created_utc"] ∧
           delete "url" (post_data_of (self_post "p9")) !! k' = None ∧
           msg = "'" +:+ k' +:+ "'").
Proof.
  apply (fetch_or_initialize_post_missing_key FirestoreClient "p9"
           (delete "url" (post_data_of (self_post "p9"))) one_post_world "url").
  - set_solver.
  - vm_compute. reflexivity.
  - vm_compute. reflexivity.
Defined.

(** ** Client handles *)



(** ** The trigger endpoint *)

Lemma run_agent_runs e req w :
  authorized e req →
  run_agent e req w =
    let '(db, w1) := initialize_firestore e w in
    let '(reddit, w2) := initialize_reddit e w1 in
    let '(result, w3) := run_agent_cycle db reddit w2 in
    match result with
    | CycleError _ => (jsonify (BCycle result) 500, w3)
    | CycleSuccess _ _ _ => (jsonify (BCycle result) 200, w3)
    end.
Proof. intros Hauth. unfold run_agent. by rewrite (require_api_key_accepts _ _ _ _ Hauth). Qed.



(** X11. When one of the two clients cannot be had — the store client fails
    to build, a forum credential is unset or empty, or the forum login fails
    — the trigger endpoint answers 500 with the error ['Connection failed'].
    Both initialisations are attempted, but the store is never queried and
    the forum never listed, and the collection is unchanged. *)
Theorem run_agent_connection_failed e req w :
  authorized e req →
  is_Some (next_fault w) ∨
  truthy (getenv e "REDDIT_CLIENT_ID") = false ∨
  truthy (getenv e "REDDIT_CLIENT_SECRET") = false ∨
  truthy (getenv e "REDDIT_REFRESH_TOKEN") = false ∨
  is_Some (next_fault (advance EvFirestoreInit w)) →
  (run_agent e req w).1 = jsonify (BCycle (CycleError "Connection failed")) 500 ∧
  docs (run_agent e req w).2 = docs w ∧
  ∃ evs, log (run_agent e req w).2 = evs ++ log w ∧
         ∀ ev, ev ∈ evs → ev = EvFirestoreInit ∨ ev = EvRedditInit.
Proof.
  intros Hauth Hcause. rewrite (run_agent_runs _ _ _ Hauth), initialize_firestore_eq.
  unfold initialize_reddit, REDDIT_CLIENT_ID, REDDIT_CLIENT_SECRET, REDDIT_REFRESH_TOKEN,
    external.
  assert (He1 : ∀ ev, ev ∈ [EvFirestoreInit] → ev = EvFirestoreInit ∨ ev = EvRedditInit).
  { intros ev ->%list_elem_of_singleton. by left. }
  assert (He2 : ∀ ev, ev ∈ [EvRedditInit; EvFirestoreInit] →
                      ev = EvFirestoreInit ∨ ev = EvRedditInit).
  { intros ev [->|[->|[]%elem_of_nil]%elem_of_cons]%elem_of_cons; [by right|by left]. }
  destruct (truthy (getenv e "REDDIT_CLIENT_ID") && truthy (getenv e "REDDIT_CLIENT_SECRET")
            && truthy (getenv e "REDDIT_REFRESH_TOKEN")) eqn:Hcred; cbn [negb].
  - destruct (next_fault (advance EvFirestoreInit w)) eqn:Hf2.
    + destruct (next_fault w); cbn; (split_and!; [done|done|by exists [EvRedditInit; EvFirestoreInit]]).
    + apply andb_true_iff in Hcred as [[H1 H2]%andb_true_iff H3].
      destruct Hcause as [[m Hm]|[?|[?|[?|[m Hm]]]]]; try congruence.
      rewrite Hm. cbn. split_and!; [done|done|by exists [EvRedditInit; EvFirestoreInit]].
  - destruct (next_fault w); cbn; (split_and!; [done|done|by exists [EvFirestoreInit]]).
Qed.

Lemma run_agent_connection_failed_witness :
  (run_agent sample_environ (keyed_request ∅) one_post_world).1
    = jsonify (BCycle (CycleError "Connection failed")) 500.
Proof.
  apply (run_agent_connection_failed sample_environ (keyed_request ∅) one_post_world).
  - exists "secret". split_and!; [discriminate|reflexivity|reflexivity].
  - right. left. reflexivity.
Defined.

(** ** Status codes *)

Lemma update_post_body_codes post_id req w r w' :
  update_post_body post_id req w = (r, w') →
  ∀ resp, r = Ret resp → code resp = 200 ∨ code resp = 400.
Proof.
  intros Hb resp ->.
  destruct (update_post_body_inv _ _ _ _ _ Hb) as [(_ & Hc & _)|(? & ? & _ & _ & _ & _ & Hr & _)].
  - right. by apply Hc.
  - injection Hr as ->. by left.
Qed.

(** The codes of the views proper, behind the key check. *)
Lemma authorized_codes e ep req w :
  authorized e req →
  code (serve e ep req w).1 ∈ [200; 400; 404; 500]%nat.
Proof.
  intros Hauth. destruct ep as [| | |post_id|post_id]; cbn [serve].
  - cbn. set_solver.
  - rewrite (run_agent_runs _ _ _ Hauth).
    destruct (initialize_firestore e w) as [db w1].
    destruct (initialize_reddit e w1) as [reddit w2].
    destruct (run_agent_cycle db reddit w2) as [[msg|n a t] w3]; cbn; set_solver.
  - unfold get_posts. rewrite (require_api_key_accepts _ _ _ _ Hauth), initialize_firestore_eq.
    destruct (next_fault w); [cbn; set_solver|].
    unfold guarded, mbind, stream_all, mbind, external.
    destruct (next_fault (advance EvFirestoreInit w)); cbn; set_solver.
  - unfold get_post. rewrite (require_api_key_accepts _ _ _ _ Hauth), initialize_firestore_eq.
    destruct (next_fault w); [cbn; set_solver|].
    unfold guarded, mbind. rewrite doc_get_eq.
    destruct (next_fault (advance EvFirestoreInit w)); [cbn; set_solver|].
    cbn. destruct (docs w !! post_id); cbn; set_solver.
  - unfold update_post. rewrite (require_api_key_accepts _ _ _ _ Hauth), initialize_firestore_eq.
    destruct (next_fault w); [cbn; set_solver|].
    unfold guarded.
    destruct (update_post_body post_id req (advance EvFirestoreInit w)) as [[resp|msg] w1] eqn:Hb;
      [|cbn; set_solver].
    destruct (update_post_body_codes _ _ _ _ _ Hb resp eq_refl) as [Hc|Hc]; cbn; rewrite Hc;
      set_solver.
Qed.

(** X12. Every answer carries one of the codes 200, 400, 401, 404 and 500,
    and a protected endpoint answers 401 exactly when the request does not
    carry the configured, non-empty key: no view behind the check ever
    answers 401 itself. *)
Theorem serve_status_codes e ep req w :
  code (serve e ep req w).1 ∈ [200; 400; 401; 404; 500]%nat ∧
  (ep ≠ Health → (code (serve e ep req w).1 = 401 ↔ ¬ authorized e req)).
Proof.
  assert (Hcases : authorized e req ∨
            (¬ authorized e req ∧
             (ep ≠ Health → serve e ep req w = (jsonify (BError "Unauthorized") 401, w)))).
  { destruct (require_api_key_cases e (λ _ w, (jsonify (BHealth 0) 200, w)) req w)
      as [Hrej|[Hauth _]]; [|by left].
    right. assert (Hno : ¬ authorized e req).
    { intros Hauth. rewrite (require_api_key_accepts _ _ _ _ Hauth) in Hrej. done. }
    split; [done|]. intros Hep.
    destruct (truthy (getenv e "API_KEY")) eqn:Ht.
    - apply protected_rejects; [done|]. right. intros Heq. apply Hno.
      apply truthy_true in Ht as (key & He & Hkey). exists key. split_and!; congruence.
    - apply protected_rejects; [done|]. by left. }
  split.
  - destruct Hcases as [Hauth|[_ Hrej]].
    + pose proof (authorized_codes e ep req w Hauth). set_solver.
    + destruct ep; [cbn; set_solver|..]; (rewrite Hrej; [cbn; set_solver|done]).
  - intros Hep. destruct Hcases as [Hauth|[Hno Hrej]].
    + pose proof (authorized_codes e ep req w Hauth) as Hc. split; [|done].
      intros H401. rewrite H401 in Hc. set_solver.
    + rewrite (Hrej Hep). by split.
Qed.

(** ** Failures of the store *)

(** X13. When the store client cannot be built, the three endpoints that
    open the store answer an authorised request with 500 and
    ['Database connection failed'], having made no other call. *)
Theorem store_backed_endpoints_need_client e ep req w :
  store_backed ep →
  authorized e req →
  is_Some (next_fault w) →
  serve e ep req w =
    (jsonify (BError "Database connection failed") 500, advance EvFirestoreInit w).
Proof.
  intros Hep Hauth [msg Hf].
  destruct ep as [| | |post_id|post_id]; try done; cbn [serve];
    unfold get_posts, get_post, update_post;
    by rewrite (require_api_key_accepts _ _ _ _ Hauth), initialize_firestore_eq, Hf.
Qed.

Lemma store_backed_endpoints_need_client_witness :
  serve sample_environ Posts (keyed_request ∅) (with_faults [Some "no credentials"] one_post_world) =
    (jsonify (BError "Database connection failed") 500,
     advance EvFirestoreInit (with_faults [Some "no credentials"] one_post_world)).
Proof.
  apply (store_backed_endpoints_need_client sample_environ Posts (keyed_request ∅)
           (with_faults [Some "no credentials"] one_post_world)).
  - exact I.
  - exists "secret". split_and!; [discriminate|reflexivity|reflexivity].
  - eexists. reflexivity.
Defined.



(** ** Update, then read *)





(** ** The collection path *)

Lemma string_length_app (a b : string) :
  String.length (a +:+ b) = (String.length a + String.length b)%nat.
Proof. induction a as [|c a IH]; simpl; [done|by f_equal]. Qed.

Lemma string_app_inv_tail (a b s : string) : a +:+ s = b +:+ s → a = b.
Proof.
  revert b. induction a as [|c a IH]; intros [|c' b] Heq.
  - done.
  - apply (f_equal String.length) in Heq.
    change (String.length s = S (String.length (b +:+ s))) in Heq.
    rewrite string_length_app in Heq. lia.
  - apply (f_equal String.length) in Heq.
    change (S (String.length (a +:+ s)) = String.length s) in Heq.
    rewrite string_length_app in Heq. lia.
  - simpl in Heq. injection Heq as -> Heq. f_equal. by apply IH.
Qed.

(** X17. The collection path determines the application id: two servers
    configured with different [APP_ID]s never address the same collection,
    and a server without [APP_ID] addresses that of ['default-app-id']. *)
Theorem get_firestore_collection_path_inj e e' :
  (get_firestore_collection_path e = get_firestore_collection_path e' ↔ APP_ID e = APP_ID e') ∧
  (getenv e "APP_ID" = None →
   get_firestore_collection_path e = "artifacts/default-app-id/public/data/reddit_posts").
Proof.
  unfold get_firestore_collection_path. split.
  - split; [|by intros ->].
    intros Heq. cbn in Heq. simplify_eq. by apply string_app_inv_tail in Heq.
  - unfold APP_ID, getenv_default, getenv. by intros ->.
Qed.

(** ** More on [get_config] *)

Section get_config_edges.
Context {J : Type} (json_loads : string → option J).

(** X18. The configuration endpoint answers 200 exactly when the variable
    is set, not empty, and decodes, and 500 otherwise.  An empty variable is
    reported as missing, not as malformed, and the decoder is not consulted
    for it. *)
Theorem get_config_status (e : environ) :
  (Config.code (Config.get_config json_loads e) = 200 ↔
   ∃ text config, getenv e "FIREBASE_CONFIG_JSON" = Some text ∧ text ≠ "" ∧
                  json_loads text = Some config) ∧
  (Config.code (Config.get_config json_loads e) = 200 ∨
   Config.code (Config.get_config json_loads e) = 500) ∧
  (getenv e "FIREBASE_CONFIG_JSON" = Some "" →
   Config.get_config json_loads e =
     {| Config.content :=
          Config.BError "Firebase configuration not found in environment variables.";
        Config.code := 500 |}).
Proof.
  unfold Config.get_config.
  destruct (getenv e "FIREBASE_CONFIG_JSON") as [text|] eqn:He; cbn.
  2:{ split_and!; [|by right|done]. split; [done|]. by intros (? & ? & ? & _). }
  destruct (String.eqb_spec text "") as [-> |Hne]; cbn.
  { split_and!; [|by right|done]. split; [done|]. by intros (? & ? & [= <-] & ? & _). }
  destruct (json_loads text) as [config|] eqn:Hl; cbn.
  - split_and!; [|by left|by intros [= ->]]. split; [|done]. intros _. by exists text, config.
  - split_and!; [|by right|by intros [= ->]]. split; [done|].
    intros (? & ? & [= <-] & _ & ?). congruence.
Qed.
End get_config_edges.

(** ** Further witnesses on the sample data *)

Lemma ingest_loop_app_witness :
  ingest_loop FirestoreClient ([Item (sticky_post "s1")] ++ Broken "boom" :: [Item (self_post "p1")])
    0 empty_world = (Raise "boom", empty_world).
Proof.
  rewrite (proj2 (ingest_loop_app FirestoreClient [Item (sticky_post "s1")]
                    [Item (self_post "p1")] 0 empty_world) "boom").
  reflexivity.
Defined.

Lemma serve_status_codes_witness :
  code (serve sample_environ Posts keyless_request after_first_cycle).1 = 401.
Proof.
  apply (proj2 (serve_status_codes sample_environ Posts keyless_request after_first_cycle)).
  - discriminate.
  - intros (key & _ & _ & Hkey). discriminate Hkey.
Defined.

Lemma get_firestore_collection_path_inj_witness :
  get_firestore_collection_path sample_environ =
    "artifacts/default-app-id/public/data/reddit_posts".
Proof.
  apply (proj2 (get_firestore_collection_path_inj sample_environ sample_environ)).
  reflexivity.
Defined.

Lemma get_config_status_witness :
  Config.code (Config.get_config literal_loads config_environ) = 200.
Proof.
  apply (proj1 (get_config_status literal_loads config_environ)).
  exists "true", (VBool true). split_and!; [reflexivity|discriminate|reflexivity].
Defined.
